(** * Verification of the audio playback client (audio_client.py)

    A shallow embedding of the playback worker, the clip queue, the
    two HTTP handlers and the reconnecting feed connector of
    [audio_client.py], followed by the properties of the specification
    that were checked against it.

    Conventions.
    - Python [str] values are [string]s whose characters are the code
      points below 256; [bytes] values are lists of [Byte.byte].
    - Python [int] is [Z]; Python [float] is kept abstract behind the
      interface [FloatOps] and instantiated twice: by IEEE binary64
      (the arithmetic CPython really uses) and by exact rationals.
    - Every call into a library (the sound device, the clock, the WAV
      reader, the JSON reader) is an input of the model: its outcome
      is supplied by the caller of the step function. *)

From Stdlib Require Import List String Ascii ZArith QArith Qround Bool Lia.
From Stdlib Require Import Strings.Byte.
From Stdlib Require Import Floats.SpecFloat.
Import ListNotations.

Local Open Scope Z_scope.

#[local] Set Warnings "-register-all".

(* ------------------------------------------------------------------ *)
(** * Python values used by the client                                 *)
(* ------------------------------------------------------------------ *)

(** Exceptions that occur in the client.  All of them derive from
    [Exception] except the two marked as base exceptions, which an
    [except Exception] clause does not catch. *)
Inductive exn : Type :=
| NameError (name : string)
| UnboundLocalError (name : string)
| AttributeError
| TypeError
| ValueError
| OverflowError
| ZeroDivisionError
| JSONDecodeError
| WaveError
| EOFError
| PortAudioError
| QueueEmpty
| QueueFull
| ConnectionError
| CancelledError        (* BaseException *)
| KeyboardInterrupt.    (* BaseException *)

Definition is_Exception (e : exn) : bool :=
  match e with
  | CancelledError | KeyboardInterrupt => false
  | _ => true
  end.

Definition is_PortAudioError (e : exn) : bool :=
  match e with
  | PortAudioError => true
  | _ => false
  end.

(** The result of a Python expression: an exception or a value. *)
Definition result (A : Type) : Type := (exn + A)%type.

Definition raise {A : Type} (e : exn) : result A := inl e.
Definition ret {A : Type} (a : A) : result A := inr a.

Definition bind {A B : Type} (r : result A) (k : A -> result B) : result B :=
  match r with
  | inl e => inl e
  | inr a => k a
  end.

Notation "x <- r ;; k" := (bind r (fun x => k))
  (at level 61, r at next level, right associativity).

(** Values produced by [json.loads]. *)
Inductive json : Type :=
| JNull
| JBool (b : bool)
| JInt (z : Z)
| JFloat (q : Q)
| JStr (s : string)
| JList (l : list json)
| JDict (d : list (string * json)).

(** [d.get(key)] on a dict kept as an association list. *)
Fixpoint dict_get (d : list (string * json)) (key : string) : option json :=
  match d with
  | [] => None
  | (k, v) :: d' => if String.eqb k key then Some v else dict_get d' key
  end.

(** [x.get(key, default)]: only dicts have a [get] method. *)
Definition py_get (x : json) (key : string) (default : json) : result json :=
  match x with
  | JDict d =>
      match dict_get d key with
      | Some v => ret v
      | None => ret default
      end
  | _ => raise AttributeError
  end.

(** Truth value of a JSON value, as tested by [if x:]. *)
Definition truthy (x : json) : bool :=
  match x with
  | JNull => false
  | JBool b => b
  | JInt z => negb (z =? 0)
  | JFloat q => negb (Qnum q =? 0)
  | JStr s => negb (String.eqb s "")
  | JList l => match l with [] => false | _ => true end
  | JDict d => match d with [] => false | _ => true end
  end.

(** [x == s] for a string literal [s]. *)
Definition eq_str (x : json) (s : string) : bool :=
  match x with
  | JStr t => String.eqb t s
  | _ => false
  end.

(** One element of the iterable given to [bytes(...)]: an int (or a
    bool, which is an int) in [range(256)]. *)
Definition byte_of_json (x : json) : result byte :=
  match x with
  | JInt z =>
      if (0 <=? z) && (z <? 256)
      then match Byte.of_N (Z.to_N z) with
           | Some b => ret b
           | None => raise ValueError
           end
      else raise ValueError
  | JBool b => ret (if b then x01%byte else x00%byte)
  | _ => raise TypeError
  end.

Fixpoint bytes_of_list (l : list json) : result (list byte) :=
  match l with
  | [] => ret []
  | x :: l' =>
      b <- byte_of_json x ;;
      bs <- bytes_of_list l' ;;
      ret (b :: bs)
  end.

(** [bytes(x)] for a JSON value [x]. *)
Definition py_bytes (x : json) : result (list byte) :=
  match x with
  | JList l => bytes_of_list l
  | JInt z => if z <? 0 then raise ValueError
              else ret (repeat x00%byte (Z.to_nat z))
  | JBool b => ret (repeat x00%byte (if b then 1%nat else 0%nat))
  | JDict d => match d with [] => ret [] | _ => raise TypeError end
  | _ => raise TypeError
  end.

(* ------------------------------------------------------------------ *)
(** * Text: [str.split()], [" ".join(...)] and slicing                 *)
(* ------------------------------------------------------------------ *)

(** Characters that [str.split()] treats as separators, among the code
    points below 256. *)
Definition isspace (c : ascii) : bool :=
  let n := Z.of_N (N_of_ascii c) in
  ((9 <=? n) && (n <=? 13)) || ((28 <=? n) && (n <=? 32))
  || (n =? 133) || (n =? 160).

Definition flush_word (cur : string) (rest : list string) : list string :=
  match cur with
  | EmptyString => rest
  | _ => cur :: rest
  end.

(** [split_from cur s]: the words of [s], [cur] being the characters of
    the word read so far. *)
Fixpoint split_from (cur : string) (s : string) : list string :=
  match s with
  | EmptyString => flush_word cur []
  | String c s' =>
      if isspace c
      then flush_word cur (split_from EmptyString s')
      else split_from (cur ++ String c EmptyString)%string s'
  end.

(** [text.split()] *)
Definition py_split (text : string) : list string :=
  split_from EmptyString text.

(** [" ".join(ws)] *)
Definition py_join (ws : list string) : string := String.concat " " ws.

(** [l[:n]] for any integer [n]; a negative [n] counts from the end. *)
Definition slice_to {A : Type} (l : list A) (n : Z) : list A :=
  if 0 <=? n then firstn (Z.to_nat n) l
  else firstn (Z.to_nat (Z.of_nat (List.length l) + n)) l.

(* ------------------------------------------------------------------ *)
(** * Floating-point numbers                                           *)
(* ------------------------------------------------------------------ *)

(** The operations the client applies to Python floats. *)
Record FloatOps : Type := {
  float : Type;
  of_int : Z -> float;                 (* int -> float conversion *)
  fdiv : float -> float -> float;      (* x / y, y nonzero *)
  fsub : float -> float -> float;      (* x - y *)
  flt : float -> float -> bool;        (* x < y *)
  fge : float -> float -> bool;        (* x >= y *)
  fnonzero : float -> bool;            (* truth value of x *)
  fint : float -> result Z             (* int(x): truncation *)
}.

(** The built-in [min(a, b)]: the first argument wins ties. *)
Definition py_min (F : FloatOps) (a b : float F) : float F :=
  if flt F b a then b else a.

(** ** IEEE binary64, the arithmetic of CPython *)
Module Binary64.

Definition prec : Z := 53.
Definition emax : Z := 1024.

Definition from_int (z : Z) : spec_float :=
  binary_normalize prec emax z 0 false.

Definition nonzero (x : spec_float) : bool :=
  match x with
  | S754_zero _ => false
  | _ => true
  end.

(** [int(x)] truncates toward zero and rejects infinities and NaN. *)
Definition to_int (x : spec_float) : result Z :=
  match x with
  | S754_zero _ => ret 0
  | S754_infinity _ => raise OverflowError
  | S754_nan => raise ValueError
  | S754_finite s m e =>
      let a := if 0 <=? e then Z.shiftl (Zpos m) e
               else Z.shiftr (Zpos m) (- e) in
      ret (if s then - a else a)
  end.

Definition ops : FloatOps := {|
  float := spec_float;
  of_int := from_int;
  fdiv := SFdiv prec emax;
  fsub := SFsub prec emax;
  flt := SFltb;
  fge := fun x y => SFleb y x;
  fnonzero := nonzero;
  fint := to_int
|}.

End Binary64.

(** ** Exact rational arithmetic *)
Module Exact.

Definition nonzero (x : Q) : bool := negb (Qnum x =? 0).

(** Truncation toward zero. *)
Definition to_int (x : Q) : result Z :=
  ret (Z.quot (Qnum x) (Zpos (Qden x))).

Definition lt (x y : Q) : bool := negb (Qle_bool y x).

Definition ops : FloatOps := {|
  float := Q;
  of_int := inject_Z;
  fdiv := Qdiv;
  fsub := Qminus;
  flt := lt;
  fge := fun x y => Qle_bool y x;
  fnonzero := nonzero;
  fint := to_int
|}.

End Exact.

(* ------------------------------------------------------------------ *)
(** * [asyncio.Queue]                                                  *)
(* ------------------------------------------------------------------ *)

(** The queue of the asyncio library, reduced to what the client calls.
    A [maxsize] of zero or less means that the queue never reports
    itself full. *)
Module AsyncQueue.

Record t (A : Type) : Type := Make { maxsize : Z; items : list A }.

Arguments Make {A} _ _.
Arguments maxsize {A} _.
Arguments items {A} _.

(** [asyncio.Queue()] : the default [maxsize] is 0. *)
Definition create (A : Type) : t A := Make 0 [].

Definition qsize {A} (q : t A) : Z := Z.of_nat (List.length (items q)).

Definition empty {A} (q : t A) : bool :=
  match items q with
  | [] => true
  | _ => false
  end.

Definition full {A} (q : t A) : bool :=
  if maxsize q <=? 0 then false else maxsize q <=? qsize q.

Definition put_nowait {A} (q : t A) (x : A) : result (t A) :=
  if full q then raise QueueFull
  else ret (Make (maxsize q) (items q ++ [x])).

Definition get_nowait {A} (q : t A) : result (A * t A) :=
  match items q with
  | [] => raise QueueEmpty
  | x :: rest => ret (x, Make (maxsize q) rest)
  end.

End AsyncQueue.

(* ------------------------------------------------------------------ *)
(** * Global state of the module                                       *)
(* ------------------------------------------------------------------ *)

(** The second component of a queued pair: the code tests it with
    [isinstance(audio_bytes, bytes)]. *)
Inductive payload : Type :=
| Bytes (b : list byte)
| NotBytes (v : json).

(** A queued pair [(text, audio_bytes)]. *)
Definition Clip : Type := (json * payload)%type.

(** Lines written with [print]; the variable parts are kept, the
    decoration is not. *)
Inductive LogLine : Type :=
| LogInvalidAudio                          (* Received invalid audio data *)
| LogClip (frames sr channels : Z)         (* clip: <frames/sr>s @ sr Hz *)
| LogInterrupted                           (* Playback interrupted by user *)
| LogPortAudioFailure (e : exn)            (* PortAudio failure *)
| LogPortAudioReset (e : exn)              (* PortAudio error; resetting *)
| LogSpoken (s : string)                   (* Spoken text: '...' *)
| LogFinished                              (* Playback finished *)
| LogStartSpeaking                         (* Start speaking - interrupting *)
| LogRecordingComplete                     (* Recording Complete *)
| LogConnecting (uri : string)
| LogConnected (label : string)
| LogJsonError
| LogText (t : json)
| LogAudioLength (n : Z)                   (* Received audio of length *)
| LogAudioError (e : exn)                  (* Error processing audio data *)
| LogQueueFull                             (* Playback queue full *)
| LogSocketError (label : string) (e : exn) (delay : Z).

Record Globals : Type := {
  playback_queue : AsyncQueue.t Clip;
  stop_playback_event : bool;
  spoken_text : string;
  stdout : list LogLine
}.

(** The state after the module body has run (lines 63-65). *)
Definition initial_globals : Globals := {|
  playback_queue := AsyncQueue.create Clip;
  stop_playback_event := false;
  spoken_text := "";
  stdout := []
|}.

Definition set_queue (q : AsyncQueue.t Clip) (g : Globals) : Globals :=
  {| playback_queue := q;
     stop_playback_event := stop_playback_event g;
     spoken_text := spoken_text g;
     stdout := stdout g |}.

Definition set_event (b : bool) (g : Globals) : Globals :=
  {| playback_queue := playback_queue g;
     stop_playback_event := b;
     spoken_text := spoken_text g;
     stdout := stdout g |}.

Definition set_spoken_text (s : string) (g : Globals) : Globals :=
  {| playback_queue := playback_queue g;
     stop_playback_event := stop_playback_event g;
     spoken_text := s;
     stdout := stdout g |}.

Definition print (l : LogLine) (g : Globals) : Globals :=
  {| playback_queue := playback_queue g;
     stop_playback_event := stop_playback_event g;
     spoken_text := spoken_text g;
     stdout := stdout g ++ [l] |}.

(* ------------------------------------------------------------------ *)
(** * HTTP endpoints                                                   *)
(* ------------------------------------------------------------------ *)

Record Response : Type := { status : Z; text : string }.

(** [web.Response(text=t)]: the status defaults to 200. *)
Definition web_Response (t : string) : Response := {| status := 200; text := t |}.

(** The loop of lines 165-169.  Each turn removes the head of the queue,
    so the recursion is on the queued items. *)
Fixpoint flush_items (maxsize : Z) (l : list Clip) : AsyncQueue.t Clip :=
  let q := AsyncQueue.Make maxsize l in
  match l with
  | [] => q                                   (* not empty() is false *)
  | _ :: rest => flush_items maxsize rest     (* get_nowait() *)
  end.

Definition flush (q : AsyncQueue.t Clip) : AsyncQueue.t Clip :=
  flush_items (AsyncQueue.maxsize q) (AsyncQueue.items q).

(** [handle_start_speaking], applied to the decoded body [data] of the
    request.  [None] is the handler falling off its end without a
    response. *)
Definition handle_start_speaking (data : json) (g : Globals)
  : result (option Response) * Globals :=
  match py_get data "message" JNull with
  | inl e => (raise e, g)
  | inr m =>
      if eq_str m "Start speaking" then
        let g := print LogStartSpeaking g in
        let g := set_event true g in
        let g := set_queue (flush (playback_queue g)) g in
        (ret (Some (web_Response "true")), g)
      else (ret None, g)
  end.

(** [handle_recording_end] *)
Definition handle_recording_end (data : json) (g : Globals)
  : result Response * Globals :=
  match py_get data "message" JNull with
  | inl e => (raise e, g)
  | inr m =>
      let g := if eq_str m "Recording Complete"
               then print LogRecordingComplete g else g in
      (ret (web_Response (spoken_text g)), g)
  end.

(* ------------------------------------------------------------------ *)
(** * WebSocket clients                                                *)
(* ------------------------------------------------------------------ *)

Definition ROBOT_ID : string := "robot_1".

(** What the name [enqueue_clip] is bound to when line 236 looks it up:
    a coroutine function taking [(audio_bytes, text)], or nothing. *)
Definition EnqueueFn : Type :=
  list byte -> json -> Globals -> result unit * Globals.

(** The module as it is executed binds no such name: the only [def] of
    [enqueue_clip] is commented out (lines 147-153, and again 351-356). *)
Definition module_enqueue_clip : option EnqueueFn := None.

(** The text of the commented-out definition, kept for comparison only. *)
Definition commented_enqueue_clip : EnqueueFn :=
  fun audio_bytes text g =>
    let g := print (LogAudioLength (Z.of_nat (List.length audio_bytes))) g in
    match AsyncQueue.put_nowait (playback_queue g) (text, Bytes audio_bytes) with
    | inr q => (ret tt, set_queue q g)
    | inl _ => (ret tt, print LogQueueFull g)   (* except asyncio.QueueFull *)
    end.

(** How the body of a loop ends: it reaches the next iteration (by
    falling through or by [continue]) or an exception leaves it. *)
Inductive flow : Type :=
| Next
| Raised (e : exn).

(** Lines 232-238: the [try] around the conversion and the enqueue. *)
Definition process_audio (enqueue_clip : option EnqueueFn)
    (audio_list text : json) (g : Globals) : flow * Globals :=
  let handler (e : exn) (g : Globals) : flow * Globals :=
    if is_Exception e then (Next, print (LogAudioError e) g)
    else (Raised e, g) in
  match py_bytes audio_list with
  | inl e => handler e g
  | inr audio_bytes =>
      let g := print (LogAudioLength (Z.of_nat (List.length audio_bytes))) g in
      match enqueue_clip with
      | None => handler (NameError "enqueue_clip") g
      | Some f =>
          match f audio_bytes text g with
          | (inl e, g') => handler e g'
          | (inr _, g') => (Next, g')
          end
      end
  end.

(** Lines 227-238, for a message that passed the filter. *)
Definition accept_message (enqueue_clip : option EnqueueFn)
    (msg : json) (g : Globals) : flow * Globals :=
  match py_get msg "text" (JStr "") with
  | inl e => (Raised e, g)
  | inr text =>
      let g := if truthy text then print (LogText text) g else g in
      match py_get msg "audio" JNull with
      | inl e => (Raised e, g)
      | inr audio_list =>
          if truthy audio_list
          then process_audio enqueue_clip audio_list text g
          else (Next, g)
      end
  end.

(** Lines 218-238: the body of [async for raw in ws].  [parsed] is the
    outcome of [json.loads(raw)], [None] standing for JSONDecodeError. *)
Definition on_message (enqueue_clip : option EnqueueFn) (label : string)
    (parsed : option json) (g : Globals) : flow * Globals :=
  match parsed with
  | None => (Next, print LogJsonError g)
  | Some msg =>
      if String.eqb label "primary" then
        match py_get msg "robot_id" JNull with
        | inl e => (Raised e, g)
        | inr r =>
            if negb (eq_str r ROBOT_ID) then (Next, g)
            else accept_message enqueue_clip msg g
        end
      else accept_message enqueue_clip msg g
  end.

(** [async for raw in ws] over the messages received before the
    connection ends. *)
Fixpoint stream (enqueue_clip : option EnqueueFn) (label : string)
    (frames : list (option json)) (g : Globals) : flow * Globals :=
  match frames with
  | [] => (Next, g)
  | parsed :: frames' =>
      match on_message enqueue_clip label parsed g with
      | (Next, g') => stream enqueue_clip label frames' g'
      | (Raised e, g') => (Raised e, g')
      end
  end.

(** What the transport does during one turn of the outer [while True]:
    either [websockets.connect] raises, or the connection is opened,
    the registration is sent ([send] is the exception raised by
    [ws.send], if any), [frames] arrive, and the receive loop ends
    normally ([closing = None]) or by an exception. *)
Inductive Attempt : Type :=
| ConnectFails (e : exn)
| Connects (send : option exn) (frames : list (option json))
           (closing : option exn).

(** The state of [_generic_socket] at the top of its [while True]: the
    local [retry], or the exception that left the coroutine. *)
Inductive Connector : Type :=
| Connecting (retry : Z)
| Escaped (e : exn).

(** Lines 239-243: the handler of the outer [try].  It yields the new
    [retry] and the argument of [asyncio.sleep]. *)
Definition on_socket_error (label : string) (e : exn) (retry : Z)
    (g : Globals) : Connector * option Z * Globals :=
  if is_Exception e then
    let retry := retry + 1 in
    let delay := Z.min 60 (2 ^ retry) in
    (Connecting retry, Some delay, print (LogSocketError label e delay) g)
  else (Escaped e, None, g).

(** One turn of the outer [while True] (lines 204-243). *)
Definition socket_turn (enqueue_clip : option EnqueueFn)
    (uri label : string) (a : Attempt) (retry : Z) (g : Globals)
  : Connector * option Z * Globals :=
  let g := print (LogConnecting uri) g in
  match a with
  | ConnectFails e => on_socket_error label e retry g
  | Connects send frames closing =>
      let g := print (LogConnected label) g in
      let retry := 0 in
      match (if String.eqb label "primary" then send else None) with
      | Some e => on_socket_error label e retry g
      | None =>
          match stream enqueue_clip label frames g with
          | (Raised e, g') => on_socket_error label e retry g'
          | (Next, g') =>
              match closing with
              | Some e => on_socket_error label e retry g'
              | None => (Connecting retry, None, g')
              end
          end
      end
  end.

(** [_generic_socket(uri, label)] run against a finite script of
    transport behaviours; the second component lists the arguments of
    the successive [asyncio.sleep(delay)] calls. *)
Fixpoint socket_loop (enqueue_clip : option EnqueueFn) (uri label : string)
    (script : list Attempt) (c : Connector) (g : Globals)
  : Connector * list Z * Globals :=
  match script, c with
  | [], _ => (c, [], g)
  | _, Escaped _ => (c, [], g)
  | a :: script', Connecting retry =>
      match socket_turn enqueue_clip uri label a retry g with
      | (c', d, g') =>
          match socket_loop enqueue_clip uri label script' c' g' with
          | (c'', ds, g'') =>
              (c'', (match d with Some x => [x] | None => [] end) ++ ds, g'')
          end
      end
  end.

Definition _generic_socket (enqueue_clip : option EnqueueFn)
    (uri label : string) (script : list Attempt) (g : Globals)
  : Connector * list Z * Globals :=
  socket_loop enqueue_clip uri label script (Connecting 0) g.

(* ------------------------------------------------------------------ *)
(** * WAV helpers                                                      *)
(* ------------------------------------------------------------------ *)

(** What [_decode_wav] reads from an opened WAV file: [getframerate()],
    [getnchannels()] and [readframes(getnframes())]. *)
Record WavFile : Type := {
  framerate : Z;
  nchannels : Z;
  frames : list byte
}.

(** A numpy array of one or two dimensions; [columns = None] for a
    one-dimensional array.  The samples are exact: an int16 divided by
    32768 is representable in float32. *)
Record ndarray : Type := {
  samples : list Q;
  columns : option Z
}.

(** [len(audio)]: the size of the first dimension. *)
Definition array_len (a : ndarray) : Z :=
  match columns a with
  | None => Z.of_nat (List.length (samples a))
  | Some c => Z.of_nat (List.length (samples a)) / c
  end.

(** [1 if audio.ndim == 1 else audio.shape[1]] *)
Definition array_channels (a : ndarray) : Z :=
  match columns a with
  | None => 1
  | Some c => c
  end.

Definition int16_le (lo hi : byte) : Z :=
  let u := Z.of_N (Byte.to_N lo) + 256 * Z.of_N (Byte.to_N hi) in
  if u <? 32768 then u else u - 65536.

(** [np.frombuffer(frames, dtype=np.int16)] on a little-endian host. *)
Fixpoint frombuffer_int16 (b : list byte) : result (list Z) :=
  match b with
  | [] => ret []
  | [_] => raise ValueError
  | lo :: hi :: rest =>
      vs <- frombuffer_int16 rest ;;
      ret (int16_le lo hi :: vs)
  end.

Section Decode.

(** [wave.open(io.BytesIO(audio_bytes), "rb")] followed by the three
    reads; the WAV reader belongs to the Python library. *)
Variable wave_open : list byte -> result WavFile.

(** [_decode_wav] *)
Definition _decode_wav (audio_bytes : list byte) : result (Z * ndarray) :=
  wf <- wave_open audio_bytes ;;
  let sr := framerate wf in
  let n_ch := nchannels wf in
  ints <- frombuffer_int16 (frames wf) ;;
  let audio := map (fun z => Qmake z 32768) ints in
  if n_ch >? 1 then
    if Z.of_nat (List.length audio) mod n_ch =? 0
    then ret (sr, {| samples := audio; columns := Some n_ch |})
    else raise ValueError
  else ret (sr, {| samples := audio; columns := None |}).

End Decode.

(* ------------------------------------------------------------------ *)
(** * Playback worker                                                  *)
(* ------------------------------------------------------------------ *)

Section Playback.

Variable F : FloatOps.

(** The locals of [playback_worker] that describe the current clip. *)
Record Session : Type := {
  audio : ndarray;
  sr : Z;
  duration : float F;
  words : list string;
  word_dur : float F
}.

(** What the sound device and the clock answer while the worker runs
    from one suspension point to the next.  Each field is the outcome
    of one call of the source; a device call answers [None] when it
    returns normally. *)
Record Obs : Type := {
  dev_stop : option exn;             (* sd.stop(), line 110 *)
  dev_play : option exn;             (* sd.play(blocking=False), line 111 *)
  now_start : float F;               (* time.time(), line 112 *)
  dev_stop_interrupt : option exn;   (* sd.stop(), line 115 *)
  now_check : float F;               (* time.time(), line 118 *)
  dev_reset_stop : option exn;       (* sd.stop(), line 127 *)
  dev_reset_wait : option exn;       (* sd.wait(), line 127 *)
  dev_play_blocking : option exn;    (* sd.play(blocking=True), line 130 *)
  now_retry : float F;               (* time.time(), line 132 *)
  now_end : float F                  (* time.time(), line 136 *)
}.

(** The worker between two runs: suspended at one of its three [await]
    points, or gone because an exception left the coroutine.  [start]
    is a local of the function: it keeps its value from one clip to
    the next and is unbound ([None]) until first assigned. *)
Inductive Worker : Type :=
| AwaitClip (start : option (float F))                        (* line 91 *)
| PollSleep (s : Session) (attempt : Z) (start : float F)     (* line 120 *)
| SettleSleep (s : Session) (attempt : Z)
              (start : option (float F))                      (* line 128 *)
| Crashed (e : exn).

(** Line 137: [int(elapsed / word_dur) if word_dur else 0] *)
Definition spoken_words (elapsed wd : float F) : result Z :=
  if fnonzero F wd then fint F (fdiv F elapsed wd) else ret 0.

(** Lines 136-142, after which the outer loop returns to line 91. *)
Definition report (s : Session) (start : option (float F)) (o : Obs)
    (g : Globals) : Worker * Globals :=
  match start with
  | None => (Crashed (UnboundLocalError "start"), g)
  | Some st =>
      let elapsed := py_min F (fsub F (now_end o) st) (duration s) in
      match spoken_words elapsed (word_dur s) with
      | inl e => (Crashed e, g)
      | inr n =>
          let spoken := py_join (slice_to (words s) n) in
          let g := set_spoken_text spoken g in
          let g := print (if String.eqb spoken "" then LogFinished
                          else LogSpoken spoken) g in
          (AwaitClip start, g)
      end
  end.

(** Lines 122-128: the [except sd.PortAudioError] clause, up to its
    [await].  Any other exception leaves the coroutine, and so does an
    exception raised inside the clause. *)
Definition on_device_error (s : Session) (attempt : Z)
    (start : option (float F)) (e : exn) (o : Obs) (g : Globals)
  : Worker * Globals :=
  if is_PortAudioError e then
    if attempt =? 2 then report s start o (print (LogPortAudioFailure e) g)
    else
      let g := print (LogPortAudioReset e) g in
      match dev_reset_stop o with
      | Some e' => (Crashed e', g)
      | None =>
          match dev_reset_wait o with
          | Some e' => (Crashed e', g)
          | None => (SettleSleep s attempt start, g)
          end
      end
  else (Crashed e, g).

(** Lines 130-133: the rest of the clause, then the report. *)
Definition after_settle (s : Session) (attempt : Z)
    (start : option (float F)) (o : Obs) (g : Globals) : Worker * Globals :=
  match dev_play_blocking o with
  | Some e => (Crashed e, g)
  | None => report s (Some (fsub F (now_retry o) (duration s))) o g
  end.

(** Lines 113-121: one turn of the polling loop. *)
Definition poll (s : Session) (attempt : Z) (start : float F) (o : Obs)
    (g : Globals) : Worker * Globals :=
  if stop_playback_event g then
    match dev_stop_interrupt o with
    | Some e => on_device_error s attempt (Some start) e o g
    | None => report s (Some start) o (print LogInterrupted g)
    end
  else if fge F (fsub F (now_check o) start) (duration s)
  then report s (Some start) o g
  else (PollSleep s attempt start, g).

(** Lines 109-113: the start of an attempt.  Every way through the body
    of [for attempt in (1, 2)] ends in [break] or in an exception, so
    the body is entered with [attempt = 1] only. *)
Definition play_attempt (s : Session) (attempt : Z)
    (start : option (float F)) (o : Obs) (g : Globals) : Worker * Globals :=
  match dev_stop o with
  | Some e => on_device_error s attempt start e o g
  | None =>
      match dev_play o with
      | Some e => on_device_error s attempt start e o g
      | None => poll s attempt (now_start o) o g
      end
  end.

Variable wave_open : list byte -> result WavFile.

(** Lines 92-108, for the pair just taken from the queue.  The quotient
    [len(audio) / sr] of two ints is the correctly rounded one; for
    operands below 2^53 it is the float quotient of their conversions. *)
Definition start_clip (start : option (float F)) (o : Obs) (clip : Clip)
    (g : Globals) : Worker * Globals :=
  let '(text, audio_bytes) := clip in
  let g := set_event false g in
  match audio_bytes with
  | NotBytes _ => (AwaitClip start, print LogInvalidAudio g)
  | Bytes b =>
      match _decode_wav wave_open b with
      | inl e => (Crashed e, g)
      | inr (sr, audio) =>
          if sr =? 0 then (Crashed ZeroDivisionError, g)
          else
            let duration := fdiv F (of_int F (array_len audio)) (of_int F sr) in
            let g := print (LogClip (array_len audio) sr
                                    (array_channels audio)) g in
            let text := match text with
                        | JDict _ => py_get text "text" (JStr "")
                        | _ => ret text
                        end in
            match text with
            | inr (JStr t) =>
                let words := py_split t in
                let word_dur :=
                  match words with
                  | [] => of_int F 0
                  | _ => fdiv F duration
                              (of_int F (Z.of_nat (List.length words)))
                  end in
                play_attempt {| audio := audio; sr := sr;
                                duration := duration; words := words;
                                word_dur := word_dur |} 1 start o g
            | inr _ => (Crashed AttributeError, g)
            | inl e => (Crashed e, g)
            end
      end
  end.

(** The worker runs from the suspension point it is at to the next one.
    At line 91 an empty queue leaves it suspended. *)
Definition worker_step (o : Obs) (w : Worker) (g : Globals)
  : Worker * Globals :=
  match w with
  | AwaitClip start =>
      match AsyncQueue.get_nowait (playback_queue g) with
      | inl _ => (w, g)
      | inr (clip, q) => start_clip start o clip (set_queue q g)
      end
  | PollSleep s attempt start => poll s attempt start o g
  | SettleSleep s attempt start => after_settle s attempt start o g
  | Crashed _ => (w, g)
  end.

End Playback.

Arguments AwaitClip {F} _.
Arguments PollSleep {F} _ _ _.
Arguments SettleSleep {F} _ _ _.
Arguments Crashed {F} _.

Arguments audio {F} _.
Arguments sr {F} _.
Arguments duration {F} _.
Arguments words {F} _.
Arguments word_dur {F} _.
Arguments dev_stop {F} _.
Arguments dev_play {F} _.
Arguments now_start {F} _.
Arguments dev_stop_interrupt {F} _.
Arguments now_check {F} _.
Arguments dev_reset_stop {F} _.
Arguments dev_reset_wait {F} _.
Arguments dev_play_blocking {F} _.
Arguments now_retry {F} _.
Arguments now_end {F} _.

(** The worker is inside a clip: it has taken it from the queue and has
    not yet reported on it. *)
Definition in_clip {F : FloatOps} (w : Worker F) : bool :=
  match w with
  | PollSleep _ _ _ | SettleSleep _ _ _ => true
  | _ => false
  end.

(** What [start_clip] guarantees about the session it builds
    (line 106). *)
Definition session_ok {F : FloatOps} (s : Session F) : Prop :=
  word_dur s =
    match words s with
    | [] => of_int F 0
    | _ => fdiv F (duration s) (of_int F (Z.of_nat (List.length (words s))))
    end.

(* ------------------------------------------------------------------ *)
(** * The tasks sharing the globals                                    *)
(* ------------------------------------------------------------------ *)

Section Program.

Variable F : FloatOps.
Variable wave_open : list byte -> result WavFile.

(** The event loop runs one task at a time, from one suspension point
    to the next.  A state of the program is the state of the worker
    together with the globals. *)
Record System : Type := {
  worker : Worker F;
  globals : Globals
}.

(** What the event loop may run next.  [Put] stands for a task that
    executes [playback_queue.put_nowait(c)]. *)
Inductive Event : Type :=
| WorkerRuns (o : Obs F)
| PostRoot (data : json)                 (* POST /          *)
| PostRecording (data : json)            (* POST /recording *)
| FeedMessage (label : string) (parsed : option json)
| Put (c : Clip).

(** Queue traffic, recorded to state properties of runs. *)
Inductive Action : Type :=
| Enqueued (c : Clip)
| Dequeued (c : Clip).

Definition step (ev : Event) (sys : System) : System * list Action :=
  let g := globals sys in
  match ev with
  | WorkerRuns o =>
      let acts :=
        match worker sys, AsyncQueue.get_nowait (playback_queue g) with
        | AwaitClip _, inr (c, _) => [Dequeued c]
        | _, _ => []
        end in
      let '(w, g') := worker_step F wave_open o (worker sys) g in
      ({| worker := w; globals := g' |}, acts)
  | PostRoot data =>
      ({| worker := worker sys;
          globals := snd (handle_start_speaking data g) |}, [])
  | PostRecording data =>
      ({| worker := worker sys;
          globals := snd (handle_recording_end data g) |}, [])
  | FeedMessage label parsed =>
      ({| worker := worker sys;
          globals := snd (on_message module_enqueue_clip label parsed g) |},
       [])
  | Put c =>
      match AsyncQueue.put_nowait (playback_queue g) c with
      | inr q => ({| worker := worker sys; globals := set_queue q g |},
                  [Enqueued c])
      | inl _ => (sys, [])
      end
  end.

Fixpoint run (evs : list Event) (sys : System) : System * list Action :=
  match evs with
  | [] => (sys, [])
  | ev :: evs' =>
      let '(sys', acts) := step ev sys in
      let '(sys'', acts') := run evs' sys' in
      (sys'', acts ++ acts')
  end.

Definition is_worker_event (ev : Event) : bool :=
  match ev with
  | WorkerRuns _ => true
  | _ => false
  end.

End Program.

Arguments worker {F} _.
Arguments globals {F} _.
Arguments WorkerRuns {F} _.
Arguments PostRoot {F} _.
Arguments PostRecording {F} _.
Arguments FeedMessage {F} _ _.
Arguments Put {F} _.

Fixpoint enqueued (acts : list Action) : list Clip :=
  match acts with
  | [] => []
  | Enqueued c :: acts' => c :: enqueued acts'
  | Dequeued _ :: acts' => enqueued acts'
  end.

Fixpoint dequeued (acts : list Action) : list Clip :=
  match acts with
  | [] => []
  | Dequeued c :: acts' => c :: dequeued acts'
  | Enqueued _ :: acts' => dequeued acts'
  end.

(** [Subseq l1 l2]: [l1] is [l2] with some elements left out. *)
Inductive Subseq {A : Type} : list A -> list A -> Prop :=
| Subseq_nil : Subseq [] []
| Subseq_skip : forall x l1 l2, Subseq l1 l2 -> Subseq l1 (x :: l2)
| Subseq_take : forall x l1 l2, Subseq l1 l2 -> Subseq (x :: l1) (x :: l2).

(** ** Operations on the clip queue alone *)

Inductive QueueOp : Type :=
| OpPut (c : Clip)
| OpGet.

Inductive QueueOutcome : Type :=
| PutDone
| PutFull              (* put_nowait raised QueueFull *)
| GotClip (c : Clip)
| GotEmpty.            (* get_nowait raised QueueEmpty *)

Definition queue_op (op : QueueOp) (q : AsyncQueue.t Clip)
  : AsyncQueue.t Clip * QueueOutcome :=
  match op with
  | OpPut c =>
      match AsyncQueue.put_nowait q c with
      | inr q' => (q', PutDone)
      | inl _ => (q, PutFull)
      end
  | OpGet =>
      match AsyncQueue.get_nowait q with
      | inr (c, q') => (q', GotClip c)
      | inl _ => (q, GotEmpty)
      end
  end.

Fixpoint queue_run (ops : list QueueOp) (q : AsyncQueue.t Clip)
  : AsyncQueue.t Clip * list QueueOutcome :=
  match ops with
  | [] => (q, [])
  | op :: ops' =>
      let '(q', r) := queue_op op q in
      let '(q'', rs) := queue_run ops' q' in
      (q'', r :: rs)
  end.

Definition is_put (op : QueueOp) : bool :=
  match op with OpPut _ => true | OpGet => false end.

Definition is_got (r : QueueOutcome) : bool :=
  match r with GotClip _ => true | _ => false end.

Definition count_puts (ops : list QueueOp) : Z :=
  Z.of_nat (List.length (filter is_put ops)).

Definition count_gots (rs : list QueueOutcome) : Z :=
  Z.of_nat (List.length (filter is_got rs)).

(* ------------------------------------------------------------------ *)
(** * Notions used to state the properties                             *)
(* ------------------------------------------------------------------ *)

(** The delay the specification prescribes after the [n]-th
    consecutive failure. *)
Definition backoff_delay (n : Z) : Z := Z.min 60 (2 ^ n).

(** Every exception of a transport behaviour is one that
    [except Exception] catches. *)
Definition caught (a : Attempt) : bool :=
  match a with
  | ConnectFails e => is_Exception e
  | Connects send _ closing =>
      match send with Some e => is_Exception e | None => true end
      && match closing with Some e => is_Exception e | None => true end
  end.

(** The message carries the robot identity of this client. *)
Definition robot_id_matches (msg : json) : bool :=
  match msg with
  | JDict d =>
      match dict_get d "robot_id" with
      | Some r => eq_str r ROBOT_ID
      | None => false
      end
  | _ => false
  end.

(** Order facts about the float operations that the properties of the
    spoken text rely on; binary64 and the rationals both satisfy them. *)
Record FloatLaws (F : FloatOps) : Prop := {
  (* x >= 0 and y > 0 give int(x / y) >= 0 *)
  fint_fdiv_nonneg : forall (x y : float F) (n : Z),
    flt F x (of_int F 0) = false ->
    flt F (of_int F 0) y = true ->
    fint F (fdiv F x y) = ret n ->
    0 <= n;
  (* y > 0 is a true value *)
  positive_fnonzero : forall y : float F,
    flt F (of_int F 0) y = true -> fnonzero F y = true
}.

(** The polling turn ends the playback of the clip: the interrupt event
    is set and the device stops, or the event is clear and the time
    test of line 118 succeeds. *)
Definition playback_ends {F : FloatOps} (s : Session F) (start : float F)
    (o : Obs F) (g : Globals) : Prop :=
  (stop_playback_event g = true /\ dev_stop_interrupt o = None)
  \/ (stop_playback_event g = false
      /\ fge F (fsub F (now_check o) start) (duration s) = true).

(** Line 136: [min(time.time() - start, duration)] *)
Definition elapsed_at {F : FloatOps} (s : Session F) (start : float F)
    (o : Obs F) : float F :=
  py_min F (fsub F (now_end o) start) (duration s).

(** The exception that ended the worker, if any. *)
Definition crash_of {F : FloatOps} (w : Worker F) : option exn :=
  match w with
  | Crashed e => Some e
  | _ => None
  end.

(* ------------------------------------------------------------------ *)
(** * Concrete inputs                                                  *)
(* ------------------------------------------------------------------ *)

(** A state with two clips waiting in the queue. *)
Definition two_queued : Globals :=
  set_queue (AsyncQueue.Make 0 [(JStr "first clip", Bytes []);
                                (JStr "second clip", Bytes [])])
            initial_globals.

(** A message for another robot, with a text and two audio bytes. *)
Definition foreign_message : list (string * json) :=
  [("robot_id", JStr "robot_2"); ("text", JStr "hello world");
   ("audio", JList [JInt 82; JInt 73])]%string.

(** The same message addressed to this robot. *)
Definition own_message : list (string * json) :=
  [("robot_id", JStr "robot_1"); ("text", JStr "hello world");
   ("audio", JList [JInt 82; JInt 73])]%string.

(** A device that never fails, with the clock read as [t_check] by the
    time test and as [t_end] by the report. *)
Definition quiet_obs (F : FloatOps) (t_start t_check t_end : float F) : Obs F := {|
  dev_stop := None;
  dev_play := None;
  now_start := t_start;
  dev_stop_interrupt := None;
  now_check := t_check;
  dev_reset_stop := None;
  dev_reset_wait := None;
  dev_play_blocking := None;
  now_retry := t_end;
  now_end := t_end
|}.

(** The session of a clip of [n] frames at [rate] Hz with text [t]. *)
Definition session_of (F : FloatOps) (n rate : Z) (t : string) : Session F :=
  let d := fdiv F (of_int F n) (of_int F rate) in
  let ws := py_split t in
  {| audio := {| samples := repeat (Qmake 0 32768) (Z.to_nat n);
                 columns := None |};
     sr := rate;
     duration := d;
     words := ws;
     word_dur := match ws with
                 | [] => of_int F 0
                 | _ => fdiv F d (of_int F (Z.of_nat (List.length ws)))
                 end |}.

(** Binary64 values used in examples. *)
Definition b64 (num den : Z) : float Binary64.ops :=
  fdiv Binary64.ops (of_int Binary64.ops num) (of_int Binary64.ops den).

Fixpoint bytes_eqb (a b : list byte) : bool :=
  match a, b with
  | [], [] => true
  | x :: a', y :: b' => Byte.eqb x y && bytes_eqb a' b'
  | _, _ => false
  end.

(** A WAV reader that accepts the one byte string [data], in which it
    finds the file [w], and rejects everything else. *)
Definition reads_as (data : list byte) (w : WavFile)
  : list byte -> result WavFile :=
  fun b => if bytes_eqb b data then ret w else raise WaveError.

(** Stand-ins for the bytes of two clips. *)
Definition clip_bytes : list byte := [x52; x49; x46; x46; x01]%byte.
Definition other_bytes : list byte := [x52; x49; x46; x46; x02]%byte.

(** A mono file at 8000 Hz holding [n] frames of silence. *)
Definition silence (n : Z) : WavFile :=
  {| framerate := 8000; nchannels := 1; frames := repeat x00%byte (Z.to_nat (2 * n)) |}.

(** A WAV reader that knows the two stand-in clips: one second and half
    a second of silence. *)
Definition two_clip_reader : list byte -> result WavFile :=
  fun b =>
    if bytes_eqb b clip_bytes then ret (silence 8000)
    else if bytes_eqb b other_bytes then ret (silence 4000)
    else raise WaveError.

(** A sound device whose [play] raises PortAudioError, non-blocking and
    blocking alike, while [stop] and [wait] work. *)
Definition failing_play (F : FloatOps) (t : float F) : Obs F := {|
  dev_stop := None;
  dev_play := Some PortAudioError;
  now_start := t;
  dev_stop_interrupt := None;
  now_check := t;
  dev_reset_stop := None;
  dev_reset_wait := None;
  dev_play_blocking := Some PortAudioError;
  now_retry := t;
  now_end := t
|}.

Definition two_clips : Globals :=
  set_queue (AsyncQueue.Make 0 [(JStr "first clip", Bytes clip_bytes);
                                (JStr "second clip", Bytes other_bytes)])
            initial_globals.

Definition start_speaking : json :=
  JDict [("message", JStr "Start speaking")]%string.

(** A sound device whose non-blocking [play] raises PortAudioError
    while the blocking retry succeeds. *)
Definition flaky_play (F : FloatOps) (t : float F) : Obs F := {|
  dev_stop := None;
  dev_play := Some PortAudioError;
  now_start := t;
  dev_stop_interrupt := None;
  now_check := t;
  dev_reset_stop := None;
  dev_reset_wait := None;
  dev_play_blocking := None;
  now_retry := t;
  now_end := t
|}.

(** A sound device whose [stop] raises PortAudioError when the polling
    loop calls it on an interrupt; the reset and the retry succeed. *)
Definition failing_stop (F : FloatOps) (t : float F) : Obs F := {|
  dev_stop := None;
  dev_play := None;
  now_start := t;
  dev_stop_interrupt := Some PortAudioError;
  now_check := t;
  dev_reset_stop := None;
  dev_reset_wait := None;
  dev_play_blocking := None;
  now_retry := t;
  now_end := t
|}.
(* ------------------------------------------------------------------ *)
(** * Further notions used to state properties                         *)
(* ------------------------------------------------------------------ *)

(** The program before anything has run. *)
Definition initial_system (F : FloatOps) : System F :=
  {| worker := AwaitClip None; globals := initial_globals |}.

(** The body of a request passes the test of line 161. *)
Definition is_start_speaking (data : json) : bool :=
  match py_get data "message" JNull with
  | inr m => eq_str m "Start speaking"
  | inl _ => false
  end.

(** The request is a POST / that takes the branch of line 161. *)
Definition drains {F : FloatOps} (ev : Event F) : bool :=
  match ev with
  | PostRoot data => is_start_speaking data
  | _ => false
  end.

(** The worker is in the first of the two attempts and the locals of
    its clip are those computed on lines 98-106. *)
Definition first_attempt {F : FloatOps} (w : Worker F) : Prop :=
  match w with
  | PollSleep s attempt _ | SettleSleep s attempt _ =>
      attempt = 1 /\ session_ok s
  | _ => True
  end.

(** The line of line 124 has not been printed. *)
Definition no_failure_line (out : list LogLine) : Prop :=
  forall e, ~ In (LogPortAudioFailure e) out.

(** What every turn of the worker keeps true. *)
Definition attempt_inv {F : FloatOps} (r : Worker F * Globals) : Prop :=
  first_attempt (fst r) /\ no_failure_line (stdout (snd r)).

(** A request that is not a POST / draining the queue. *)
Definition keeps_queue {F : FloatOps} (ev : Event F) : bool :=
  negb (drains ev).

(** A received frame that the receive loop handles without raising: it
    is not valid JSON, or it is a JSON object. *)
Definition frame_ok (parsed : option json) : bool :=
  match parsed with
  | None => true
  | Some (JDict _) => true
  | Some _ => false
  end.

Definition is_dict (x : json) : bool :=
  match x with
  | JDict _ => true
  | _ => false
  end.

(** The JSON array of the values of the bytes [bs]. *)
Definition json_of_bytes (bs : list byte) : json :=
  JList (map (fun b => JInt (Z.of_N (Byte.to_N b))) bs).

(** No character of [s] is a separator of [str.split()]. *)
Fixpoint no_space (s : string) : bool :=
  match s with
  | EmptyString => true
  | String c s' => negb (isspace c) && no_space s'
  end.

(** A non-empty string without separators. *)
Definition is_word (s : string) : bool :=
  negb (String.eqb s "") && no_space s.

(* ------------------------------------------------------------------ *)
(** * The speech client (speech_client.py)                             *)
(* ------------------------------------------------------------------ *)

Module SpeechClient.

Definition VOLUME_THRESHOLD : Z := 3000.

(** Lines printed by the recorder and by the connection loop. *)
Inductive Line : Type :=
| WaitingForSpeech
| SpeechDetected
| CurrentVolume (v : Z)
| ConnectionErrorRetrying
| OSErrorRetrying
| MaxRetriesReached.

Section Recorder.

Variable F : FloatOps.

(** The locals of [record_audio] that its loop reads and writes. *)
Record Recorder : Type := {
  buffer : list (list byte);
  recording : bool;
  silence_count : Z;
  last_status_time : float F;
  start_waiting_time : float F;
  printed : list Line
}.

(** What the microphone, the voice detector, the clock and the socket
    answer during one turn of the loop of lines 58-86. *)
Record Chunk : Type := {
  read : result (list byte);     (* stream.read(FRAME_SIZE, ...), line 61 *)
  is_speech : result bool;       (* vad.is_speech(audio_bytes, ...), line 66 *)
  volume : result Z;             (* np.max(np.abs(mono_audio)), line 66 *)
  now_speech : float F;          (* time.time(), line 74 *)
  now_wait : float F;            (* time.time(), line 80 *)
  now_status : float F;          (* time.time(), line 84 *)
  sent : option exn;             (* websocket.send(...), line 85 *)
  now_sent : float F             (* time.time(), line 86 *)
}.

(** How one turn of the loop ends. *)
Inductive Turn : Type :=
| Continue (st : Recorder)
| Break (st : Recorder)
| Raise (e : exn) (st : Recorder).

(** Line 66: [vad.is_speech(...) and np.max(...) >= VOLUME_THRESHOLD];
    the volume is computed only when the detector answers yes. *)
Definition loud_speech (c : Chunk) : result (option Z) :=
  sp <- is_speech c ;;
  if (sp : bool) then
    v <- volume c ;;
    ret (if VOLUME_THRESHOLD <=? v then Some v else None)
  else ret None.

(** Lines 61-86: one turn of [while True]. *)
Definition record_turn (c : Chunk) (st : Recorder) : Turn :=
  match read c with
  | inl e => Raise e st
  | inr audio_chunk =>
      (* np.frombuffer(audio_chunk, dtype=np.int16), then .tobytes() *)
      if Nat.odd (List.length audio_chunk) then Raise ValueError st
      else
        let audio_bytes := audio_chunk in
        match loud_speech c with
        | inl e => Raise e st
        | inr (Some v) =>
            Continue
              {| buffer := buffer st ++ [audio_bytes];
                 recording := true;
                 silence_count := 0;
                 last_status_time := last_status_time st;
                 start_waiting_time := now_speech c;
                 printed := printed st
                            ++ (if recording st then [] else [SpeechDetected])
                            ++ [CurrentVolume v] |}
        | inr None =>
            if recording st then
              Continue
                {| buffer := buffer st ++ [audio_bytes];
                   recording := recording st;
                   silence_count := silence_count st + 1;
                   last_status_time := last_status_time st;
                   start_waiting_time := start_waiting_time st;
                   printed := printed st |}
            else if flt F (of_int F 5)
                        (fsub F (now_wait c) (start_waiting_time st))
            then Break st
            else if fge F (fsub F (now_status c) (last_status_time st))
                        (of_int F 10)
            then match sent c with
                 | Some e => Raise e st
                 | None =>
                     Continue
                       {| buffer := buffer st;
                          recording := recording st;
                          silence_count := silence_count st;
                          last_status_time := now_sent c;
                          start_waiting_time := start_waiting_time st;
                          printed := printed st |}
                 end
            else Continue st
        end
  end.

(** The loop against a finite script; [Continue] is the loop still
    running when the script ends. *)
Fixpoint record_loop (script : list Chunk) (st : Recorder) : Turn :=
  match script with
  | [] => Continue st
  | c :: script' =>
      match record_turn c st with
      | Continue st' => record_loop script' st'
      | t => t
      end
  end.

(** How a call of [record_audio] ends. *)
Inductive Recorded : Type :=
| Returned (audio : option string)
| Raised (e : exn)
| StillRecording.

(** The WAV writer followed by base64 (lines 98-106). *)
Variable wav_base64 : list byte -> string.

(** [record_audio]: [opened] is the exception of opening the
    microphone, if any; [t_status] and [t_wait] are the clock readings
    of lines 54 and 55; [cleanup] is the exception raised in the
    [finally] block, if any. *)
Definition record_audio (opened : option exn) (t_status t_wait : float F)
    (script : list Chunk) (cleanup : option exn) : Recorded * list Line :=
  match opened with
  | Some e => (Raised e, [])
  | None =>
      let st0 := {| buffer := []; recording := false; silence_count := 0;
                    last_status_time := t_status;
                    start_waiting_time := t_wait;
                    printed := [WaitingForSpeech] |} in
      match record_loop script st0 with
      | Continue st => (StillRecording, printed st)
      | Raise e st =>
          (Raised (match cleanup with Some e' => e' | None => e end),
           printed st)
      | Break st =>
          match cleanup with
          | Some e' => (Raised e', printed st)
          | None =>
              match buffer st with
              | [] => (Returned None, printed st)
              | _ => (Returned (Some (wav_base64 (List.concat (buffer st)))),
                      printed st)
              end
          end
      end
  end.

End Recorder.

Arguments read {F} _.
Arguments is_speech {F} _.
Arguments volume {F} _.
Arguments now_speech {F} _.
Arguments now_wait {F} _.
Arguments now_status {F} _.
Arguments sent {F} _.
Arguments now_sent {F} _.
Arguments last_status_time {F} _.
Arguments start_waiting_time {F} _.
Arguments buffer {F} _.
Arguments recording {F} _.
Arguments silence_count {F} _.
Arguments printed {F} _.
Arguments Continue {F} _.
Arguments Break {F} _.
Arguments Raise {F} _ _.

(** While nothing is being recorded the buffer is empty. *)
Definition idle_is_empty {F : FloatOps} (st : Recorder F) : Prop :=
  recording st = false -> buffer st = [].

(** ** The connection loop *)

(** Why the body of the [try] of [process_audio_and_send] ended.  Its
    inner loop has no exit, so it ends by an exception only. *)
Inductive Failure : Type :=
| ConnectionClosedError
| InvalidMessage
| OSError
| Other (e : exn).

(** One turn of the outer [while True]: [registered] tells whether
    line 159 ([retry_count = 0]) was reached before the failure. *)
Record Attempt : Type := {
  registered : bool;
  failure : Failure
}.

Inductive Client : Type :=
| Running (retry_count : Z)
| Exited                       (* break: "Max retries reached" *)
| Propagated (e : exn).

Definition max_retries : Z := 5.

(** Lines 188-203: the two handlers; each yields the argument of
    [asyncio.sleep], if it sleeps. *)
Definition on_failure (f : Failure) (retry_count : Z)
  : Client * option Z * list Line :=
  let retry (l : Line) :=
    let retry_count := retry_count + 1 in
    if retry_count <=? max_retries
    then (Running retry_count, Some 5, [l])
    else (Exited, None, [l; MaxRetriesReached]) in
  match f with
  | ConnectionClosedError | InvalidMessage => retry ConnectionErrorRetrying
  | OSError => retry OSErrorRetrying
  | Other e => (Propagated e, None, [])
  end.

Definition attempt_turn (a : Attempt) (retry_count : Z)
  : Client * option Z * list Line :=
  on_failure (failure a) (if registered a then 0 else retry_count).

(** [process_audio_and_send] against a finite script of attempts. *)
Fixpoint connection_loop (script : list Attempt) (c : Client)
  : Client * list Z * list Line :=
  match script, c with
  | a :: script', Running retry_count =>
      match attempt_turn a retry_count with
      | (c', d, ls) =>
          match connection_loop script' c' with
          | (c'', ds, ls') =>
              (c'', (match d with Some x => [x] | None => [] end) ++ ds,
               ls ++ ls')
          end
      end
  | _, _ => (c, [], [])
  end.

Definition process_audio_and_send (script : list Attempt)
  : Client * list Z * list Line :=
  connection_loop script (Running 0).

(** The failure is one of the three that the handlers catch. *)
Definition handled (f : Failure) : bool :=
  match f with
  | Other _ => false
  | _ => true
  end.

(** An attempt that fails before line 159 with a handled exception. *)
Definition refused (a : Attempt) : bool :=
  negb (registered a) && handled (failure a).

(** A turn of silence read at clock time [t]. *)
Definition silent_chunk (F : FloatOps) (t : float F) : Chunk F := {|
  read := ret (repeat x00%byte 960);
  is_speech := ret false;
  volume := ret 0;
  now_speech := t;
  now_wait := t;
  now_status := t;
  sent := None;
  now_sent := t
|}.

(** A turn of loud speech read at clock time [t]. *)
Definition speech_chunk (F : FloatOps) (t : float F) : Chunk F := {|
  read := ret (repeat x7f%byte 960);
  is_speech := ret true;
  volume := ret 32639;
  now_speech := t;
  now_wait := t;
  now_status := t;
  sent := None;
  now_sent := t
|}.

End SpeechClient.

(* ------------------------------------------------------------------ *)
(** * Properties of the clip queue                                     *)
(* ------------------------------------------------------------------ *)

Lemma flush_items_empty : forall m l,
  flush_items m l = AsyncQueue.Make m [].
Proof.
  intros m l; induction l as [|c l IH]; simpl; auto.
Qed.

(** [flush] is the loop of the source: while the queue is not empty,
    take one item with [get_nowait]. *)
Lemma flush_loop : forall q,
  flush q =
    if AsyncQueue.empty q then q
    else match AsyncQueue.get_nowait q with
         | inr (_, q') => flush q'
         | inl _ => q
         end.
Proof.
  intros [m l]; destruct l as [|c l]; reflexivity.
Qed.

Lemma flush_is_empty : forall q,
  AsyncQueue.items (flush q) = [] /\
  AsyncQueue.maxsize (flush q) = AsyncQueue.maxsize q.
Proof.
  intros q; unfold flush; rewrite flush_items_empty; split; reflexivity.
Qed.

Lemma put_nowait_unbounded : forall (q : AsyncQueue.t Clip) c,
  AsyncQueue.maxsize q <= 0 ->
  AsyncQueue.put_nowait q c =
    ret (AsyncQueue.Make (AsyncQueue.maxsize q) (AsyncQueue.items q ++ [c])).
Proof.
  intros q c Hm; unfold AsyncQueue.put_nowait, AsyncQueue.full.
  destruct (Z.leb_spec (AsyncQueue.maxsize q) 0); [reflexivity | lia].
Qed.

Lemma queue_run_unbounded : forall ops q,
  AsyncQueue.maxsize q <= 0 ->
  let '(q', rs) := queue_run ops q in
  AsyncQueue.maxsize q' = AsyncQueue.maxsize q /\
  ~ In PutFull rs /\
  AsyncQueue.qsize q' = AsyncQueue.qsize q + count_puts ops - count_gots rs.
Proof.
  induction ops as [|op ops IH]; intros q Hm.
  - simpl; repeat split; [tauto | unfold count_puts, count_gots; simpl; lia].
  - cbn [queue_run].
    destruct (queue_op op q) as [q1 r] eqn:Hop.
    assert (H1 : AsyncQueue.maxsize q1 = AsyncQueue.maxsize q /\ r <> PutFull /\
                 AsyncQueue.qsize q1 =
                   AsyncQueue.qsize q + (if is_put op then 1 else 0)
                   - (if is_got r then 1 else 0)).
    { destruct op as [c|]; cbn [queue_op] in Hop.
      - rewrite put_nowait_unbounded in Hop by exact Hm.
        injection Hop as <- <-; cbn. repeat split; try discriminate.
        unfold AsyncQueue.qsize; cbn [AsyncQueue.items].
        rewrite length_app; cbn [List.length]; lia.
      - unfold AsyncQueue.get_nowait in Hop.
        destruct q as [m [|c l]]; cbn in Hop; injection Hop as <- <-;
          repeat split; try discriminate;
          unfold AsyncQueue.qsize; cbn [AsyncQueue.items List.length is_put is_got];
          lia. }
    destruct H1 as (Hm1 & Hr & Hs).
    specialize (IH q1). destruct (queue_run ops q1) as [q2 rs].
    destruct IH as (Hm2 & Hin & Hs2); [lia|].
    split; [congruence|]. split.
    + intros [H|H]; [congruence | tauto].
    + rewrite Hs2, Hs. unfold count_puts, count_gots; cbn [filter].
      destruct (is_put op), (is_got r); cbn [List.length]; lia.
Qed.

Lemma queue_run_puts : forall n c (q : AsyncQueue.t Clip),
  AsyncQueue.maxsize q <= 0 ->
  AsyncQueue.qsize (fst (queue_run (repeat (OpPut c) n) q))
  = AsyncQueue.qsize q + Z.of_nat n.
Proof.
  induction n as [|n IH]; intros c q Hm.
  - simpl; lia.
  - cbn [repeat queue_run queue_op].
    rewrite put_nowait_unbounded by exact Hm. cbn [ret].
    specialize (IH c (AsyncQueue.Make (AsyncQueue.maxsize q)
                                      (AsyncQueue.items q ++ [c]))).
    destruct (queue_run (repeat (OpPut c) n) _) as [q2 rs].
    cbn [fst] in *. rewrite IH by (cbn; exact Hm).
    unfold AsyncQueue.qsize; cbn [AsyncQueue.items].
    rewrite length_app; cbn [List.length]; lia.
Qed.

(** C5 (as stated, refuted).  The queue built on line 63 has no bound:
    one [put_nowait] already takes its size above its [maxsize], and no
    number bounds the size reached by sequences of operations. *)
Lemma clip_queue_has_no_bound :
  AsyncQueue.qsize
    (fst (queue_run [OpPut (JStr "hello", Bytes [])]
                    (playback_queue initial_globals)))
  > AsyncQueue.maxsize (playback_queue initial_globals)
  /\ ~ (exists bound : Z, forall ops : list QueueOp,
          AsyncQueue.qsize (fst (queue_run ops (playback_queue initial_globals)))
          <= bound).
Proof.
  split; [reflexivity|].
  intros [bound Hb].
  specialize (Hb (repeat (OpPut (JStr "hello", Bytes []))
                         (Z.to_nat (Z.max bound 0) + 1))).
  rewrite queue_run_puts in Hb by (cbn; lia).
  change (AsyncQueue.qsize (playback_queue initial_globals)) with 0 in Hb.
  lia.
Qed.

(** C5 (amended).  The clip queue is unbounded: in every sequence of
    [put_nowait] and [get_nowait] calls on the queue of line 63 no
    [put_nowait] raises [QueueFull], every offered clip is stored, and
    the size is the number of puts minus the number of clips taken. *)
Theorem clip_queue_unbounded : forall ops : list QueueOp,
  let '(q, rs) := queue_run ops (playback_queue initial_globals) in
  ~ In PutFull rs /\
  AsyncQueue.qsize q = count_puts ops - count_gots rs.
Proof.
  intros ops.
  pose proof (queue_run_unbounded ops (playback_queue initial_globals)) as H.
  destruct (queue_run ops (playback_queue initial_globals)) as [q rs].
  destruct H as (_ & Hin & Hs); [cbn; lia|].
  split; [exact Hin|].
  rewrite Hs. change (AsyncQueue.qsize (playback_queue initial_globals)) with 0.
  lia.
Qed.

(* ------------------------------------------------------------------ *)
(** * Properties of the HTTP endpoints                                 *)
(* ------------------------------------------------------------------ *)

(** C8.  A POST / whose body carries the message "Start speaking" sets
    the interrupt event, leaves the clip queue empty (its clips are
    discarded by [get_nowait], the sound device is not involved) and
    answers 200 with the text "true". *)
Theorem start_speaking_sets_event_and_drains :
  forall (d : list (string * json)) (g : Globals),
    dict_get d "message" = Some (JStr "Start speaking") ->
    handle_start_speaking (JDict d) g =
      (ret (Some {| status := 200; text := "true" |}),
       {| playback_queue :=
            AsyncQueue.Make (AsyncQueue.maxsize (playback_queue g)) [];
          stop_playback_event := true;
          spoken_text := spoken_text g;
          stdout := stdout g ++ [LogStartSpeaking] |}).
Proof.
  intros d g Hd.
  unfold handle_start_speaking, py_get. rewrite Hd. cbn [ret eq_str].
  change (String.eqb "Start speaking" "Start speaking") with true.
  cbv iota. unfold flush, set_queue, set_event, print, web_Response; cbn.
  rewrite flush_items_empty. reflexivity.
Qed.

Lemma start_speaking_sets_event_and_drains_witness :
  dict_get [("message", JStr "Start speaking")]%string "message"
    = Some (JStr "Start speaking")
  /\ handle_start_speaking (JDict [("message", JStr "Start speaking")]%string)
       two_queued
     = (ret (Some {| status := 200; text := "true" |}),
        {| playback_queue := AsyncQueue.Make 0 [];
           stop_playback_event := true;
           spoken_text := "";
           stdout := [LogStartSpeaking] |}).
Proof.
  split; [reflexivity|].
  apply (start_speaking_sets_event_and_drains
           [("message", JStr "Start speaking")]%string two_queued).
  reflexivity.
Defined.

(* ------------------------------------------------------------------ *)
(** * Properties of the feed connector                                 *)
(* ------------------------------------------------------------------ *)

Lemma process_audio_unbound : forall audio_list text g,
  exists lines,
    process_audio module_enqueue_clip audio_list text g
    = (Next, {| playback_queue := playback_queue g;
                stop_playback_event := stop_playback_event g;
                spoken_text := spoken_text g;
                stdout := stdout g ++ lines |}).
Proof.
  intros audio_list text g. unfold process_audio, module_enqueue_clip.
  destruct (py_bytes audio_list) as [e|bs] eqn:Hb.
  - assert (He : is_Exception e = true).
    { destruct audio_list as [| b | z | q | s | l | d]; cbn in Hb;
        try (injection Hb as <-; reflexivity); try discriminate.
      - destruct (z <? 0); [injection Hb as <-; reflexivity | discriminate].
      - revert e Hb. induction l as [|x l IH]; intros e Hb; cbn in Hb;
          [discriminate|].
        destruct (byte_of_json x) as [e1|b1] eqn:Hx; cbn in Hb.
        + injection Hb as <-.
          destruct x as [| b | z | q | s | l' | d]; cbn in Hx;
            try (injection Hx as <-; reflexivity); try discriminate.
          destruct ((0 <=? z) && (z <? 256));
            [destruct (Byte.of_N (Z.to_N z)); [discriminate|]|];
            injection Hx as <-; reflexivity.
        + destruct (bytes_of_list l) as [e2|bs2]; cbn in Hb;
            [injection Hb as <-; apply IH; reflexivity | discriminate].
      - destruct d; [discriminate | injection Hb as <-; reflexivity]. }
    rewrite He. exists [LogAudioError e]. reflexivity.
  - cbn. exists [LogAudioLength (Z.of_nat (List.length bs));
                 LogAudioError (NameError "enqueue_clip")].
    unfold print; cbn. rewrite <- app_assoc. reflexivity.
Qed.

(** With [enqueue_clip] unbound, a message changes nothing but the
    output, and the only exception it can raise is [AttributeError]. *)
Lemma on_message_unbound : forall label parsed g,
  exists fl lines,
    on_message module_enqueue_clip label parsed g
    = (fl, {| playback_queue := playback_queue g;
              stop_playback_event := stop_playback_event g;
              spoken_text := spoken_text g;
              stdout := stdout g ++ lines |})
    /\ (fl = Next \/ fl = Raised AttributeError).
Proof.
  assert (Hid : forall g : Globals,
            g = {| playback_queue := playback_queue g;
                   stop_playback_event := stop_playback_event g;
                   spoken_text := spoken_text g;
                   stdout := stdout g ++ [] |}).
  { intros [q ev sp out]; cbn; rewrite app_nil_r; reflexivity. }
  assert (Hacc : forall msg g, exists fl lines,
            accept_message module_enqueue_clip msg g
            = (fl, {| playback_queue := playback_queue g;
                      stop_playback_event := stop_playback_event g;
                      spoken_text := spoken_text g;
                      stdout := stdout g ++ lines |})
            /\ (fl = Next \/ fl = Raised AttributeError)).
  { intros msg g. unfold accept_message.
    destruct msg as [| b | z | q | s | l | d];
      try (exists (Raised AttributeError), []; split; [apply f_equal, Hid | auto]).
    cbn [py_get].
    set (text := match dict_get d "text" with
                 | Some v => ret v | None => ret (JStr "") end).
    assert (Ht : exists t, text = inr t)
      by (subst text; destruct (dict_get d "text"); eauto).
    destruct Ht as [t ->].
    set (au := match dict_get d "audio" with
               | Some v => ret v | None => ret JNull end).
    assert (Ha : exists a, au = inr a)
      by (subst au; destruct (dict_get d "audio"); eauto).
    destruct Ha as [a ->].
    destruct (truthy a).
    - destruct (process_audio_unbound a t
                  (if truthy t then print (LogText t) g else g)) as [ls ->].
      exists Next. destruct (truthy t); cbn.
      + exists (LogText t :: ls); split; [|auto].
        rewrite <- app_assoc; reflexivity.
      + exists ls; split; [reflexivity|auto].
    - exists Next. destruct (truthy t); cbn.
      + exists [LogText t]; split; [reflexivity|auto].
      + exists []; split; [apply f_equal, Hid|auto]. }
  intros label parsed g. unfold on_message.
  destruct parsed as [msg|].
  - destruct (String.eqb label "primary"); [|apply Hacc].
    destruct msg as [| b | z | q | s | l | d];
      try (exists (Raised AttributeError), []; split; [apply f_equal, Hid | auto]).
    cbn [py_get].
    destruct (match dict_get d "robot_id" with
              | Some v => ret v | None => ret JNull end) as [e|r] eqn:Hr.
    + destruct (dict_get d "robot_id"); discriminate.
    + destruct (negb (eq_str r ROBOT_ID)); [|apply Hacc].
      exists Next, []; split; [apply f_equal, Hid | auto].
  - exists Next, [LogJsonError]; split; [reflexivity|auto].
Qed.

Lemma stream_unbound : forall label frames g,
  exists fl g',
    stream module_enqueue_clip label frames g = (fl, g')
    /\ playback_queue g' = playback_queue g
    /\ (fl = Next \/ fl = Raised AttributeError).
Proof.
  intros label frames; induction frames as [|p frames IH]; intros g.
  - exists Next, g; cbn; auto.
  - cbn [stream].
    destruct (on_message_unbound label p g) as (fl & ls & -> & Hfl).
    destruct Hfl as [-> | ->].
    + destruct (IH {| playback_queue := playback_queue g;
                      stop_playback_event := stop_playback_event g;
                      spoken_text := spoken_text g;
                      stdout := stdout g ++ ls |}) as (fl' & g' & -> & Hq & Hfl').
      exists fl', g'; auto.
    + eexists _, _; split; [reflexivity|]; cbn; auto.
Qed.

Lemma on_socket_error_caught : forall label e retry g,
  is_Exception e = true ->
  on_socket_error label e retry g
  = (Connecting (retry + 1), Some (backoff_delay (retry + 1)),
     print (LogSocketError label e (backoff_delay (retry + 1))) g).
Proof.
  intros label e retry g He. unfold on_socket_error. rewrite He. reflexivity.
Qed.

(** A turn in which the connection is opened ends with [retry] at 0 and
    no sleep, or, when the open connection fails, with [retry] at 1 and
    a sleep of 2 seconds; the clip queue is untouched. *)
Lemma socket_turn_connects : forall uri label send frames closing retry g,
  caught (Connects send frames closing) = true ->
  exists g',
    playback_queue g' = playback_queue g /\
    (socket_turn module_enqueue_clip uri label
                 (Connects send frames closing) retry g
       = (Connecting 0, None, g')
     \/ socket_turn module_enqueue_clip uri label
                    (Connects send frames closing) retry g
       = (Connecting 1, Some 2, g')).
Proof.
  intros uri label send frames closing retry g Hc.
  cbn [caught] in Hc. apply andb_prop in Hc as [Hs Hcl].
  unfold socket_turn.
  set (g1 := print (LogConnected label) (print (LogConnecting uri) g)).
  assert (Hg1 : playback_queue g1 = playback_queue g) by reflexivity.
  destruct (if String.eqb label "primary" then send else None) as [e|] eqn:Hsend.
  - assert (He : is_Exception e = true).
    { destruct (String.eqb label "primary"); [|discriminate].
      subst send; exact Hs. }
    rewrite on_socket_error_caught by exact He.
    eexists; split; [|right; reflexivity]. exact Hg1.
  - destruct (stream_unbound label frames g1) as (fl & g2 & -> & Hq & Hfl).
    destruct Hfl as [-> | ->].
    + destruct closing as [e|].
      * rewrite on_socket_error_caught by exact Hcl.
        eexists; split; [|right; reflexivity]. cbn; congruence.
      * eexists; split; [|left; reflexivity]. congruence.
    + rewrite on_socket_error_caught by reflexivity.
      eexists; split; [|right; reflexivity]. cbn; congruence.
Qed.

Lemma socket_turn_fails : forall enq uri label e retry g,
  is_Exception e = true ->
  socket_turn enq uri label (ConnectFails e) retry g
  = (Connecting (retry + 1), Some (backoff_delay (retry + 1)),
     print (LogSocketError label e (backoff_delay (retry + 1)))
           (print (LogConnecting uri) g)).
Proof.
  intros; unfold socket_turn. apply on_socket_error_caught; assumption.
Qed.

(** Delays of a run of connection failures that starts with [retry]
    at [r]. *)
Lemma socket_loop_failures : forall enq uri label es r g,
  forallb is_Exception es = true ->
  exists g',
    playback_queue g' = playback_queue g /\
    socket_loop enq uri label (map ConnectFails es) (Connecting r) g
    = (Connecting (r + Z.of_nat (List.length es)),
       map (fun n => backoff_delay (r + Z.of_nat n)) (seq 1 (List.length es)),
       g').
Proof.
  intros enq uri label es; induction es as [|e es IH]; intros r g Hes.
  - exists g; cbn. rewrite Z.add_0_r. auto.
  - cbn [forallb] in Hes. apply andb_prop in Hes as [He Hes].
    cbn [map socket_loop]. rewrite socket_turn_fails by exact He.
    destruct (IH (r + 1) (print (LogSocketError label e (backoff_delay (r + 1)))
                                (print (LogConnecting uri) g)) Hes)
      as (g' & Hq & ->).
    exists g'; split; [exact Hq|].
    cbn [List.length seq map app].
    replace (r + 1 + Z.of_nat (List.length es))
      with (r + Z.of_nat (S (List.length es))) by lia.
    replace (r + Z.of_nat 1) with (r + 1) by lia.
    rewrite <- (seq_shift (List.length es) 1), map_map.
    apply f_equal2; [apply f_equal2; [reflexivity|] | reflexivity].
    apply f_equal.
    apply map_ext; intros n; f_equal; lia.
Qed.

Lemma socket_loop_unbound : forall uri label script c g,
  forallb caught script = true ->
  exists r ds g',
    socket_loop module_enqueue_clip uri label script (Connecting c) g
    = (Connecting r, ds, g')
    /\ playback_queue g' = playback_queue g.
Proof.
  intros uri label script; induction script as [|a script IH]; intros c g Hs.
  - exists c, [], g; auto.
  - cbn [forallb] in Hs. apply andb_prop in Hs as [Ha Hs].
    cbn [socket_loop].
    destruct a as [e | send frames closing].
    + rewrite socket_turn_fails by exact Ha.
      destruct (IH (c + 1) (print (LogSocketError label e (backoff_delay (c + 1)))
                                  (print (LogConnecting uri) g)) Hs)
        as (r & ds & g' & -> & Hq).
      eexists _, _, _; split; [reflexivity | exact Hq].
    + destruct (socket_turn_connects uri label send frames closing c g Ha)
        as (g1 & Hq1 & [-> | ->]).
      * destruct (IH 0 g1 Hs) as (r & ds & g' & -> & Hq).
        eexists _, _, _; split; [reflexivity | congruence].
      * destruct (IH 1 g1 Hs) as (r & ds & g' & -> & Hq).
        eexists _, _, _; split; [reflexivity | congruence].
Qed.

Lemma socket_loop_escaped : forall enq uri label script e g,
  socket_loop enq uri label script (Escaped e) g = (Escaped e, [], g).
Proof.
  intros enq uri label [|a script] e g; reflexivity.
Qed.

Lemma socket_loop_app : forall enq uri label s1 s2 c g,
  socket_loop enq uri label (s1 ++ s2) c g =
    let '(c1, d1, g1) := socket_loop enq uri label s1 c g in
    let '(c2, d2, g2) := socket_loop enq uri label s2 c1 g1 in
    (c2, d1 ++ d2, g2).
Proof.
  intros enq uri label s1; induction s1 as [|a s1 IH]; intros s2 c g.
  - cbn [app socket_loop].
    destruct (socket_loop enq uri label s2 c g) as [[c2 d2] g2]. reflexivity.
  - destruct c as [retry | e].
    + cbn [app socket_loop].
      destruct (socket_turn enq uri label a retry g) as [[c' d] g'].
      rewrite IH.
      destruct (socket_loop enq uri label s1 c' g') as [[c1 d1] g1].
      destruct (socket_loop enq uri label s2 c1 g1) as [[c2 d2] g2].
      rewrite app_assoc. reflexivity.
    + rewrite !socket_loop_escaped. cbn.
      rewrite ?socket_loop_escaped. reflexivity.
Qed.

(** C6.  On either feed: (i) the [n]-th of a run of consecutive
    connection failures is followed by a sleep of [min(60, 2^n)]
    seconds; (ii) whatever happened before, once a connection has been
    opened the count starts again, so the failures that follow it sleep
    2, 4, 8, ... seconds; (iii) the connector never stops: after every
    sequence of transport failures it is about to connect again. *)
Theorem reconnect_backoff : forall (uri label : string),
  (forall (es : list exn) (g : Globals),
      forallb is_Exception es = true ->
      fst (_generic_socket module_enqueue_clip uri label
                           (map ConnectFails es) g)
      = (Connecting (Z.of_nat (List.length es)),
         map (fun n => Z.min 60 (2 ^ Z.of_nat n)) (seq 1 (List.length es))))
  /\
  (forall (history : list Attempt) send frames closing (es : list exn)
          (g : Globals),
      forallb caught history = true ->
      caught (Connects send frames closing) = true ->
      forallb is_Exception es = true ->
      exists (k : nat) (before : list Z),
        (k = 0%nat \/ k = 1%nat) /\
        fst (_generic_socket module_enqueue_clip uri label
               (history ++ Connects send frames closing :: map ConnectFails es)
               g)
        = (Connecting (Z.of_nat (k + List.length es)),
           before ++ map (fun n => Z.min 60 (2 ^ Z.of_nat n))
                         (seq 1 (k + List.length es))))
  /\
  (forall (script : list Attempt) (g : Globals),
      forallb caught script = true ->
      exists retry delays g',
        _generic_socket module_enqueue_clip uri label script g
        = (Connecting retry, delays, g')).
Proof.
  intros uri label. split; [|split].
  - intros es g Hes. unfold _generic_socket.
    destruct (socket_loop_failures module_enqueue_clip uri label es 0 g Hes)
      as (g' & _ & ->).
    reflexivity.
  - intros history send frames closing es g Hh Hc Hes. unfold _generic_socket.
    rewrite socket_loop_app.
    destruct (socket_loop_unbound uri label history 0 g Hh)
      as (r & ds & g1 & -> & _).
    cbn [socket_loop].
    destruct (socket_turn_connects uri label send frames closing r g1 Hc)
      as (g2 & _ & [-> | ->]).
    + destruct (socket_loop_failures module_enqueue_clip uri label es 0 g2 Hes)
        as (g3 & _ & ->).
      exists 0%nat, ds. split; [auto|]. reflexivity.
    + destruct (socket_loop_failures module_enqueue_clip uri label es 1 g2 Hes)
        as (g3 & _ & ->).
      exists 1%nat, ds. split; [auto|]. cbn [fst].
      apply f_equal2; [f_equal; lia|].
      apply f_equal. cbn [Nat.add seq map app].
      apply f_equal2; [reflexivity|].
      rewrite <- (seq_shift (List.length es) 1), map_map.
      apply map_ext; intros n. unfold backoff_delay. do 2 f_equal. lia.
  - intros script g Hs. unfold _generic_socket.
    destruct (socket_loop_unbound uri label script 0 g Hs)
      as (r & ds & g' & -> & _).
    eauto.
Qed.

Lemma reconnect_backoff_witness :
  forallb is_Exception (repeat ConnectionError 7) = true
  /\ fst (_generic_socket module_enqueue_clip "ws://feed" "primary"
            (map ConnectFails (repeat ConnectionError 7)) initial_globals)
     = (Connecting 7, [2; 4; 8; 16; 32; 60; 60]).
Proof.
  split; [reflexivity|].
  apply (proj1 (reconnect_backoff "ws://feed" "primary")
           (repeat ConnectionError 7) initial_globals).
  reflexivity.
Defined.

(** C7.  On the primary feed a message whose [robot_id] is not the
    configured identity leaves every global as it was, whatever
    [enqueue_clip] is bound to: nothing is printed and nothing is put
    on the clip queue. *)
Theorem primary_filter_ignores_other_robots :
  forall (enqueue_clip : option EnqueueFn) (msg : json) (g : Globals),
    robot_id_matches msg = false ->
    snd (on_message enqueue_clip "primary" (Some msg) g) = g
    /\ (forall d, msg = JDict d ->
          on_message enqueue_clip "primary" (Some msg) g = (Next, g)).
Proof.
  intros enq msg g Hm. unfold on_message.
  change (String.eqb "primary" "primary") with true. cbv iota.
  destruct msg as [| b | z | q | s | l | d];
    try (split; [reflexivity | intros d' Hd; discriminate]).
  cbn [py_get robot_id_matches] in *.
  assert (H : match (match dict_get d "robot_id" with
                     | Some v => ret v | None => ret JNull end) with
              | inl e => (Raised e, g)
              | inr r => if negb (eq_str r ROBOT_ID) then (Next, g)
                         else accept_message enq (JDict d) g
              end = (Next, g)).
  { destruct (dict_get d "robot_id") as [r|]; cbn.
    - rewrite Hm; reflexivity.
    - reflexivity. }
  rewrite H. split; [reflexivity | intros; reflexivity].
Qed.

Lemma primary_filter_ignores_other_robots_witness :
  robot_id_matches (JDict foreign_message) = false
  /\ snd (on_message (Some commented_enqueue_clip) "primary"
                     (Some (JDict foreign_message)) initial_globals)
     = initial_globals.
Proof.
  split; [reflexivity|].
  apply (proj1 (primary_filter_ignores_other_robots
                  (Some commented_enqueue_clip) (JDict foreign_message)
                  initial_globals eq_refl)).
Defined.

(** The filter is what keeps the clip out: were [enqueue_clip] bound to
    the commented-out definition, the same message addressed to this
    robot would be queued. *)
Lemma primary_filter_passes_own_robot :
  AsyncQueue.items
    (playback_queue
       (snd (on_message (Some commented_enqueue_clip) "primary"
                        (Some (JDict own_message)) initial_globals)))
  = [(JStr "hello world", Bytes [x52; x49]%byte)].
Proof. reflexivity. Qed.

(** C10.  [enqueue_clip] is not bound when the module runs.  A feed
    message that reaches line 236 (its audio field is non-empty and
    converts to bytes) therefore raises NameError there; the handler of
    line 237 catches it, prints it and the receive loop goes on.
    Consequently no run of a feed connector changes the clip queue. *)
Theorem enqueue_clip_is_unbound :
  module_enqueue_clip = None
  /\
  (forall (d : list (string * json)) (text audio_list : json)
          (audio_bytes : list byte) (g : Globals),
      py_get (JDict d) "text" (JStr "") = ret text ->
      dict_get d "audio" = Some audio_list ->
      truthy audio_list = true ->
      py_bytes audio_list = ret audio_bytes ->
      accept_message module_enqueue_clip (JDict d) g
      = (Next,
         print (LogAudioError (NameError "enqueue_clip"))
           (print (LogAudioLength (Z.of_nat (List.length audio_bytes)))
              (if truthy text then print (LogText text) g else g))))
  /\
  (forall (label : string) (parsed : option json) (g : Globals),
      playback_queue (snd (on_message module_enqueue_clip label parsed g))
      = playback_queue g)
  /\
  (forall (uri label : string) (script : list Attempt) (g : Globals),
      playback_queue
        (snd (_generic_socket module_enqueue_clip uri label script g))
      = playback_queue g).
Proof.
  split; [reflexivity|]. split; [|split].
  - intros d text audio_list audio_bytes g Ht Ha Htr Hb.
    unfold accept_message. rewrite Ht. cbn [py_get]. rewrite Ha. cbn [ret].
    rewrite Htr. unfold process_audio. rewrite Hb. reflexivity.
  - intros label parsed g.
    destruct (on_message_unbound label parsed g) as (fl & ls & -> & _).
    reflexivity.
  - intros uri label script. unfold _generic_socket.
    generalize 0 at 1. generalize dependent script.
    assert (Hturn : forall a retry g,
               playback_queue
                 (snd (socket_turn module_enqueue_clip uri label a retry g))
               = playback_queue g).
    { intros a retry g. unfold socket_turn, on_socket_error.
      destruct a as [e | send frames closing].
      - destruct (is_Exception e); reflexivity.
      - destruct (if String.eqb label "primary" then send else None) as [e|].
        + destruct (is_Exception e); reflexivity.
        + destruct (stream_unbound label frames
                      (print (LogConnected label) (print (LogConnecting uri) g)))
            as (fl & g2 & -> & Hq & Hfl).
          destruct Hfl as [-> | ->].
          * destruct closing as [e|]; [destruct (is_Exception e)|];
              cbn; rewrite Hq; reflexivity.
          * cbn; rewrite Hq; reflexivity. }
    induction script as [|a script IH]; intros retry g; [reflexivity|].
    cbn [socket_loop].
    specialize (Hturn a retry g).
    destruct (socket_turn module_enqueue_clip uri label a retry g)
      as [[c' d] g'].
    cbn [snd] in Hturn.
    destruct c' as [r' | e].
    + specialize (IH r' g').
      destruct (socket_loop module_enqueue_clip uri label script
                            (Connecting r') g') as [[c'' ds] g''].
      cbn [snd] in *. congruence.
    + rewrite socket_loop_escaped. cbn [snd]. exact Hturn.
Qed.

Lemma enqueue_clip_is_unbound_witness :
  py_get (JDict own_message) "text" (JStr "") = ret (JStr "hello world")
  /\ dict_get own_message "audio" = Some (JList [JInt 82; JInt 73])
  /\ truthy (JList [JInt 82; JInt 73]) = true
  /\ py_bytes (JList [JInt 82; JInt 73]) = ret [x52; x49]%byte
  /\ accept_message module_enqueue_clip (JDict own_message) initial_globals
     = (Next,
        {| playback_queue := AsyncQueue.Make 0 [];
           stop_playback_event := false;
           spoken_text := "";
           stdout := [LogText (JStr "hello world"); LogAudioLength 2;
                      LogAudioError (NameError "enqueue_clip")] |}).
Proof.
  repeat (split; [reflexivity|]).
  apply (proj1 (proj2 enqueue_clip_is_unbound) own_message
           (JStr "hello world") (JList [JInt 82; JInt 73]) [x52; x49]%byte
           initial_globals); reflexivity.
Defined.

(* ------------------------------------------------------------------ *)
(** * The two arithmetics satisfy the order laws                       *)
(* ------------------------------------------------------------------ *)

Lemma binary64_to_int_nonneg : forall m e n,
  Binary64.to_int (S754_finite false m e) = ret n -> 0 <= n.
Proof.
  intros m e n H. cbn in H. injection H as <-.
  destruct (0 <=? e).
  - apply Z.shiftl_nonneg; lia.
  - apply Z.shiftr_nonneg; lia.
Qed.

Lemma binary64_round_nonneg : forall mx ex lx n,
  Binary64.to_int
    (binary_round_aux Binary64.prec Binary64.emax false mx ex lx) = ret n ->
  0 <= n.
Proof.
  intros mx ex lx n. unfold binary_round_aux.
  destruct (shr_fexp _ _ mx ex lx) as [mrs' e'].
  destruct (shr_fexp _ _ _ e' loc_Exact) as [mrs'' e''].
  destruct (shr_m mrs'') as [|p|p].
  - cbn; intros H; injection H as <-; lia.
  - destruct (e'' <=? Binary64.emax - Binary64.prec).
    + apply binary64_to_int_nonneg.
    + cbn; discriminate.
  - cbn; discriminate.
Qed.

Lemma binary64_laws : FloatLaws Binary64.ops.
Proof.
  split.
  - intros x y n Hx Hy Hn. cbn in *.
    change (Binary64.from_int 0) with (S754_zero false) in *.
    destruct y as [sy | sy | | sy my ey]; cbn in Hy; try discriminate;
      destruct sy; try discriminate;
      destruct x as [sx | sx | | sx mx ex]; cbn in Hx, Hn;
      try discriminate; try (destruct sx; discriminate);
      try (injection Hn as <-; lia).
    destruct sx; [discriminate|].
    cbn [xorb] in Hn.
    destruct (SFdiv_core_binary _ _ _ _ _ _) as [[mz ez] lz].
    eapply binary64_round_nonneg; exact Hn.
  - intros y Hy. cbn in *.
    change (Binary64.from_int 0) with (S754_zero false) in *.
    destruct y; cbn in *; try discriminate; reflexivity.
Qed.

Lemma exact_lt_spec : forall x y : Q,
  Exact.lt x y = true <-> (x < y)%Q.
Proof.
  intros x y. unfold Exact.lt. rewrite negb_true_iff.
  split.
  - intros H. apply Qnot_le_lt. intros Hle.
    apply Qle_bool_iff in Hle. congruence.
  - intros H. destruct (Qle_bool y x) eqn:E; [|reflexivity].
    apply Qle_bool_iff in E. exfalso. exact (Qlt_not_le _ _ H E).
Qed.

Lemma exact_lt_false : forall x y : Q,
  Exact.lt x y = false <-> (y <= x)%Q.
Proof.
  intros x y. unfold Exact.lt. rewrite negb_false_iff. apply Qle_bool_iff.
Qed.

Lemma exact_laws : FloatLaws Exact.ops.
Proof.
  split.
  - intros x y n Hx Hy Hn. cbn in *.
    apply exact_lt_false in Hx. apply exact_lt_spec in Hy.
    unfold Exact.to_int in Hn. injection Hn as <-.
    apply Z.quot_pos; [|lia].
    assert (H : (0 <= x / y)%Q).
    { apply Qle_shift_div_l; [exact Hy|]. rewrite Qmult_0_l. exact Hx. }
    unfold Qle in H; cbn in H. lia.
  - intros y Hy. cbn in *. apply exact_lt_spec in Hy.
    unfold Exact.nonzero. apply negb_true_iff. apply Z.eqb_neq.
    unfold Qlt in Hy; cbn in Hy. lia.
Qed.

(* ------------------------------------------------------------------ *)
(** * Properties of the spoken text                                    *)
(* ------------------------------------------------------------------ *)

Lemma slice_to_nonneg : forall (A : Type) (l : list A) (n : Z),
  0 <= n -> slice_to l n = firstn (Z.to_nat n) l.
Proof.
  intros A l n Hn. unfold slice_to.
  destruct (Z.leb_spec 0 n); [reflexivity | lia].
Qed.

Lemma report_spoken : forall (F : FloatOps) (s : Session F) start o g n,
  spoken_words F (elapsed_at s start o) (word_dur s) = ret n ->
  exists g',
    report F s (Some start) o g = (AwaitClip (Some start), g')
    /\ spoken_text g' = py_join (slice_to (words s) n)
    /\ playback_queue g' = playback_queue g
    /\ stop_playback_event g' = stop_playback_event g.
Proof.
  intros F s start o g n Hn. unfold report.
  fold (elapsed_at s start o). rewrite Hn.
  eexists; split; [reflexivity|]. cbn. auto.
Qed.

Lemma poll_ends : forall (F : FloatOps) (s : Session F) attempt start o g,
  playback_ends s start o g ->
  poll F s attempt start o g
  = report F s (Some start) o
      (if stop_playback_event g then print LogInterrupted g else g).
Proof.
  intros F s attempt start o g [[He Hd] | [He Ht]]; unfold poll; rewrite He.
  - rewrite Hd. reflexivity.
  - rewrite Ht. reflexivity.
Qed.

(** C1.  When a polling turn ends the playback of a clip of [W] >= 1
    words and duration [D] with [D / W > 0], interrupted or completed,
    and the elapsed time [e] computed on line 136 is not negative, the
    worker is back at the queue and [spoken_text] is the first [n]
    words of the text joined by single spaces, where [n] is the integer
    part of [e / (D / W)].  The arithmetic is any one that satisfies
    [FloatLaws], binary64 in particular; [n] depends on [e], [D] and
    [W] only. *)
Theorem spoken_text_is_first_words :
  forall (F : FloatOps), FloatLaws F ->
  forall (s : Session F) (attempt : Z) (start : float F) (o : Obs F)
         (g : Globals) (n : Z),
    let W := Z.of_nat (List.length (words s)) in
    let D := duration s in
    let e := elapsed_at s start o in
    session_ok s ->
    words s <> [] ->
    playback_ends s start o g ->
    flt F e (of_int F 0) = false ->
    flt F (of_int F 0) (fdiv F D (of_int F W)) = true ->
    fint F (fdiv F e (fdiv F D (of_int F W))) = ret n ->
    exists g',
      poll F s attempt start o g = (AwaitClip (Some start), g')
      /\ spoken_text g' = py_join (firstn (Z.to_nat n) (words s)).
Proof.
  intros F L s attempt start o g n W D e Hok Hw Hends He Hpos Hn.
  assert (Hwd : word_dur s = fdiv F D (of_int F W)).
  { unfold session_ok in Hok. rewrite Hok.
    destruct (words s); [congruence | reflexivity]. }
  assert (Hsp : spoken_words F e (word_dur s) = ret n).
  { unfold spoken_words. rewrite Hwd.
    rewrite (positive_fnonzero F L _ Hpos). exact Hn. }
  assert (H0 : 0 <= n) by exact (fint_fdiv_nonneg F L _ _ _ He Hpos Hn).
  rewrite (poll_ends F s attempt start o g Hends).
  destruct (report_spoken F s start o
              (if stop_playback_event g then print LogInterrupted g else g)
              n Hsp) as (g' & Hr & Ht & _).
  exists g'. split; [exact Hr|].
  rewrite Ht, slice_to_nonneg by exact H0. reflexivity.
Qed.

(** The scenario of the specification: a clip of four words lasting two
    seconds, interrupted 1.1 seconds after its start, in binary64. *)
Lemma spoken_text_is_first_words_witness :
  exists g',
    poll Binary64.ops
         (session_of Binary64.ops 32000 16000 "never odd or even") 1
         (b64 0 1)
         (quiet_obs Binary64.ops (b64 0 1) (b64 11 10) (b64 11 10))
         (set_event true initial_globals)
    = (AwaitClip (Some (b64 0 1)), g')
    /\ spoken_text g' = "never odd"%string.
Proof.
  apply (spoken_text_is_first_words Binary64.ops binary64_laws
           (session_of Binary64.ops 32000 16000 "never odd or even") 1
           (b64 0 1)
           (quiet_obs Binary64.ops (b64 0 1) (b64 11 10) (b64 11 10))
           (set_event true initial_globals) 2).
  - vm_compute; reflexivity.
  - vm_compute; discriminate.
  - left; split; reflexivity.
  - vm_compute; reflexivity.
  - vm_compute; reflexivity.
  - vm_compute; reflexivity.
Defined.







(** Rounding in binary64: a clip of seven words and 7200 frames at
    8000 Hz that plays to completion reports six words, because
    [0.9 / (0.9 / 7)] evaluates to 6.999999999999999. *)
Lemma binary64_rounding_loses_a_word :
  let s := session_of Binary64.ops 7200 8000
                      "one two three four five six seven" in
  let o := quiet_obs Binary64.ops (b64 100 1) (b64 101 1) (b64 101 1) in
  playback_ends s (b64 100 1) o initial_globals
  /\ elapsed_at s (b64 100 1) o = duration s
  /\ spoken_words Binary64.ops (elapsed_at s (b64 100 1) o) (word_dur s) = ret 6
  /\ spoken_text (snd (poll Binary64.ops s 1 (b64 100 1) o initial_globals))
     = "one two three four five six"%string.
Proof.
  cbv zeta. split; [right; split; vm_compute; reflexivity|].
  repeat split; vm_compute; reflexivity.
Qed.

(* ------------------------------------------------------------------ *)
(** * Properties of the playback worker                                *)
(* ------------------------------------------------------------------ *)

Ltac break_match :=
  match goal with
  | |- context [match ?x with _ => _ end] => destruct x eqn:?
  end.

Section WorkerFacts.

Variable F : FloatOps.
Variable wave_open : list byte -> result WavFile.

Lemma report_queue : forall (s : Session F) start o g,
  playback_queue (snd (report F s start o g)) = playback_queue g.
Proof.
  intros s start o g. unfold report. repeat break_match; reflexivity.
Qed.

Lemma report_stdout : forall (s : Session F) start o g l,
  In l (stdout g) -> In l (stdout (snd (report F s start o g))).
Proof.
  intros s start o g l Hl. unfold report.
  repeat break_match; cbn; try apply in_or_app; auto.
Qed.

Lemma report_not_in_clip : forall (s : Session F) start o g,
  in_clip (fst (report F s start o g)) = false.
Proof.
  intros s start o g. unfold report. repeat break_match; reflexivity.
Qed.

Lemma on_device_error_queue : forall (s : Session F) attempt start e o g,
  playback_queue (snd (on_device_error F s attempt start e o g))
  = playback_queue g.
Proof.
  intros s attempt start e o g. unfold on_device_error.
  repeat break_match; try reflexivity.
  rewrite report_queue. reflexivity.
Qed.

Lemma poll_queue : forall (s : Session F) attempt start o g,
  playback_queue (snd (poll F s attempt start o g)) = playback_queue g.
Proof.
  intros s attempt start o g. unfold poll.
  repeat break_match; try reflexivity;
    rewrite ?on_device_error_queue, ?report_queue; reflexivity.
Qed.

Lemma start_clip_queue : forall start o clip g,
  playback_queue (snd (start_clip F wave_open start o clip g))
  = playback_queue g.
Proof.
  intros start o [text a] g. unfold start_clip, play_attempt.
  repeat break_match; try reflexivity;
    rewrite ?on_device_error_queue, ?poll_queue; reflexivity.
Qed.

(** The worker changes the clip queue only by taking its head, and only
    while it waits on line 91. *)
Lemma worker_step_queue : forall o (w : Worker F) g,
  playback_queue (snd (worker_step F wave_open o w g))
  = match w, AsyncQueue.get_nowait (playback_queue g) with
    | AwaitClip _, inr (_, q) => q
    | _, _ => playback_queue g
    end.
Proof.
  intros o w g. unfold worker_step.
  destruct w as [start | s attempt start | s attempt start | e].
  - destruct (AsyncQueue.get_nowait (playback_queue g)) as [e | [c q]];
      [reflexivity|].
    rewrite start_clip_queue. reflexivity.
  - apply poll_queue.
  - unfold after_settle. break_match; [reflexivity | apply report_queue].
  - reflexivity.
Qed.

(** A crashed worker stays crashed and takes nothing from the queue. *)
Lemma crashed_is_final : forall evs e g,
  let '(sys, acts) := run F wave_open evs {| worker := Crashed e; globals := g |} in
  worker sys = Crashed e /\ dequeued acts = [].
Proof.
  induction evs as [|ev evs IH]; intros e g; [cbn; auto|].
  cbn [run].
  assert (H : exists g', step F wave_open ev {| worker := Crashed e; globals := g |}
                         = ({| worker := Crashed e; globals := g' |},
                            match ev with
                            | Put c =>
                                match AsyncQueue.put_nowait (playback_queue g) c with
                                | inr _ => [Enqueued c]
                                | inl _ => []
                                end
                            | _ => []
                            end)).
  { destruct ev; cbn; eauto.
    destruct (AsyncQueue.put_nowait (playback_queue g) c); cbn; eauto. }
  destruct H as [g' ->].
  specialize (IH e g').
  destruct (run F wave_open evs {| worker := Crashed e; globals := g' |})
    as [sys acts].
  destruct IH as [Hw Hd]. split; [exact Hw|].
  destruct ev; cbn [app]; try exact Hd.
  destruct (AsyncQueue.put_nowait (playback_queue g) c); cbn; exact Hd.
Qed.

(** The sibling path of line 95: a payload that is not a bytes object
    is reported and skipped. *)
Lemma invalid_payload_is_skipped : forall o start text v rest g,
  playback_queue g = AsyncQueue.Make (AsyncQueue.maxsize (playback_queue g))
                                     ((text, NotBytes v) :: rest) ->
  worker_step F wave_open o (AwaitClip start) g
  = (AwaitClip start,
     print LogInvalidAudio
       (set_event false
          (set_queue (AsyncQueue.Make (AsyncQueue.maxsize (playback_queue g)) rest)
                     g))).
Proof.
  intros o start text v rest g Hq. unfold worker_step, AsyncQueue.get_nowait.
  rewrite Hq. reflexivity.
Qed.

End WorkerFacts.

(** C3 (the code at the failing input).  Two clips are queued; [sd.play]
    raises PortAudioError on the first attempt and again on the
    blocking retry of line 130.  The second exception leaves the
    coroutine: the worker is gone, the failure line of line 124 is not
    printed, the second clip stays in the queue, and whatever runs
    afterwards nothing is taken from the queue again. *)
Theorem second_device_failure_ends_worker :
  let o := failing_play Binary64.ops (b64 100 1) in
  let sys0 := {| worker := AwaitClip None; globals := two_clips |} in
  let sys1 := fst (step Binary64.ops two_clip_reader (WorkerRuns o) sys0) in
  let sys2 := fst (step Binary64.ops two_clip_reader (WorkerRuns o) sys1) in
  in_clip (worker sys1) = true
  /\ crash_of (worker sys2) = Some PortAudioError
  /\ stdout (globals sys2) = [LogClip 8000 8000 1; LogPortAudioReset PortAudioError]
  /\ AsyncQueue.items (playback_queue (globals sys2))
     = [(JStr "second clip", Bytes other_bytes)]
  /\ forall evs : list (Event Binary64.ops),
       let '(sys, acts) := run Binary64.ops two_clip_reader evs sys2 in
       crash_of (worker sys) = Some PortAudioError /\ dequeued acts = [].
Proof.
  cbv zeta. repeat (split; [vm_compute; reflexivity|]).
  intros evs.
  set (sys2 := fst (step _ _ _ (fst (step _ _ _ _)))).
  assert (H2 : sys2 = {| worker := Crashed PortAudioError;
                         globals := globals sys2 |}).
  { assert (Hw : worker sys2 = Crashed PortAudioError).
    { assert (Hc : crash_of (worker sys2) = Some PortAudioError)
        by (vm_compute; reflexivity).
      destruct (worker sys2); cbn in Hc; congruence. }
    destruct sys2 as [w g]; cbn in *; congruence. }
  rewrite H2.
  pose proof (crashed_is_final Binary64.ops two_clip_reader evs
                PortAudioError (globals sys2)) as H.
  destruct (run _ _ evs _) as [sys acts].
  destruct H as [-> Hd]. auto.
Qed.

(** C4 (the code at the failing input).  The first queued clip holds
    bytes that the WAV reader rejects.  The exception of [_decode_wav]
    leaves the coroutine: nothing is printed, the worker is gone and
    the well-formed clip behind it is never taken from the queue. *)
Theorem decode_failure_ends_worker :
  let g0 := set_queue
              (AsyncQueue.Make 0 [(JStr "broken clip", Bytes other_bytes);
                                  (JStr "good clip", Bytes clip_bytes)])
              initial_globals in
  let reader := reads_as clip_bytes (silence 8000) in
  let o := quiet_obs Binary64.ops (b64 100 1) (b64 100 1) (b64 100 1) in
  let sys1 := fst (step Binary64.ops reader (WorkerRuns o)
                        {| worker := AwaitClip None; globals := g0 |}) in
  reader other_bytes = raise WaveError
  /\ crash_of (worker sys1) = Some WaveError
  /\ stdout (globals sys1) = []
  /\ AsyncQueue.items (playback_queue (globals sys1))
     = [(JStr "good clip", Bytes clip_bytes)]
  /\ forall evs : list (Event Binary64.ops),
       let '(sys, acts) := run Binary64.ops reader evs sys1 in
       crash_of (worker sys) = Some WaveError /\ dequeued acts = [].
Proof.
  cbv zeta. repeat (split; [vm_compute; reflexivity|]).
  intros evs.
  set (sys1 := fst (step _ _ _ _)).
  assert (H1 : sys1 = {| worker := Crashed WaveError; globals := globals sys1 |}).
  { assert (Hw : worker sys1 = Crashed WaveError).
    { assert (Hc : crash_of (worker sys1) = Some WaveError)
        by (vm_compute; reflexivity).
      destruct (worker sys1); cbn in Hc; congruence. }
    destruct sys1 as [w g]; cbn in *; congruence. }
  rewrite H1.
  pose proof (crashed_is_final Binary64.ops (reads_as clip_bytes (silence 8000))
                evs WaveError (globals sys1)) as H.
  destruct (run _ _ evs _) as [sys acts].
  destruct H as [-> Hd]. auto.
Qed.

(* ------------------------------------------------------------------ *)
(** * Interrupting the playback                                        *)
(* ------------------------------------------------------------------ *)

Lemma Subseq_refl : forall (A : Type) (l : list A), Subseq l l.
Proof.
  induction l as [|x l IH]; [apply Subseq_nil | apply Subseq_take, IH].
Qed.

Lemma Subseq_app_skip : forall (A : Type) (p l1 l2 : list A),
  Subseq l1 l2 -> Subseq l1 (p ++ l2).
Proof.
  induction p as [|x p IH]; intros l1 l2 H; cbn; [exact H|].
  apply Subseq_skip. apply IH. exact H.
Qed.

Lemma Subseq_nil_l : forall (A : Type) (l : list A), Subseq [] l.
Proof.
  induction l as [|x l IH]; [apply Subseq_nil | apply Subseq_skip, IH].
Qed.

Lemma Subseq_app_inv_l : forall (A : Type) (l1 l2 l3 : list A),
  Subseq (l1 ++ l2) l3 -> Subseq l1 l3.
Proof.
  intros A l1 l2 l3 H. remember (l1 ++ l2) as l eqn:E.
  revert l1 l2 E. induction H as [| x a b H IH | x a b H IH]; intros l1 l2 E.
  - destruct l1; [apply Subseq_nil | discriminate].
  - apply Subseq_skip. eapply IH. exact E.
  - destruct l1 as [|y l1]; cbn in E.
    + apply Subseq_nil_l.
    + injection E as <- E. apply Subseq_take. eapply IH. exact E.
Qed.

Section Interrupt.

Variable F : FloatOps.
Variable wave_open : list byte -> result WavFile.

Lemma start_speaking_effect : forall d g,
  dict_get d "message" = Some (JStr "Start speaking") ->
  let g' := snd (handle_start_speaking (JDict d) g) in
  stop_playback_event g' = true /\ AsyncQueue.items (playback_queue g') = [].
Proof.
  intros d g Hd. unfold handle_start_speaking, py_get. rewrite Hd. cbn [ret eq_str].
  change (String.eqb "Start speaking" "Start speaking") with true.
  cbv iota. cbn. unfold flush. rewrite flush_items_empty. auto.
Qed.

(** The handlers and the feeds leave the worker where it is and never
    clear the interrupt event. *)
Lemma other_tasks_keep_event : forall (ev : Event F) sys,
  is_worker_event F ev = false ->
  stop_playback_event (globals sys) = true ->
  let sys' := fst (step F wave_open ev sys) in
  worker sys' = worker sys /\ stop_playback_event (globals sys') = true.
Proof.
  intros ev [w g] Hev Hset. destruct ev as [o | data | data | label p | c];
    cbn in Hev; try discriminate; cbn [step globals worker fst] in *.
  - split; [reflexivity|]. unfold handle_start_speaking.
    repeat break_match; cbn; auto.
  - split; [reflexivity|]. unfold handle_recording_end.
    repeat break_match; cbn; auto.
  - split; [reflexivity|].
    destruct (on_message_unbound label p g) as (fl & ls & -> & _). exact Hset.
  - destruct (AsyncQueue.put_nowait (playback_queue g) c); cbn; auto.
Qed.

Lemma others_keep_event : forall (evs : list (Event F)) sys,
  forallb (fun ev => negb (is_worker_event F ev)) evs = true ->
  stop_playback_event (globals sys) = true ->
  let sys' := fst (run F wave_open evs sys) in
  worker sys' = worker sys /\ stop_playback_event (globals sys') = true.
Proof.
  induction evs as [|ev evs IH]; intros sys Hevs Hset; [cbn; auto|].
  cbn [forallb] in Hevs. apply andb_prop in Hevs as [Hev Hevs].
  apply negb_true_iff in Hev.
  destruct (other_tasks_keep_event ev sys Hev Hset) as [Hw Hs].
  cbn [run]. destruct (step F wave_open ev sys) as [sys1 acts1].
  cbn [fst] in Hw, Hs.
  specialize (IH sys1 Hevs Hs).
  destruct (run F wave_open evs sys1) as [sys2 acts2].
  cbn [fst] in *. destruct IH as [Hw2 Hs2]. split; congruence.
Qed.

(** A polling turn that finds the event set, with a device that stops,
    ends the clip. *)
Lemma poll_interrupted : forall (s : Session F) attempt start o g,
  stop_playback_event g = true ->
  dev_stop_interrupt o = None ->
  let r := poll F s attempt start o g in
  in_clip (fst r) = false /\ In LogInterrupted (stdout (snd r)).
Proof.
  intros s attempt start o g Hset Hstop. unfold poll.
  rewrite Hset, Hstop. split.
  - apply report_not_in_clip.
  - apply report_stdout. cbn. apply in_or_app. right. left. reflexivity.
Qed.

(** Queue traffic of one step. *)
Lemma step_traffic : forall (ev : Event F) sys,
  let '(sys', acts) := step F wave_open ev sys in
  let q := AsyncQueue.items (playback_queue (globals sys)) in
  let q' := AsyncQueue.items (playback_queue (globals sys')) in
  (exists c, q = c :: q' /\ acts = [Dequeued c])
  \/ (exists c, q' = q ++ [c] /\ acts = [Enqueued c])
  \/ (q' = [] /\ acts = [])
  \/ (q' = q /\ acts = []).
Proof.
  intros ev [w g]. destruct ev as [o | data | data | label p | c];
    cbn [step globals worker].
  - pose proof (worker_step_queue F wave_open o w g) as Hq.
    destruct (worker_step F wave_open o w g) as [w' g']. cbn [snd globals] in *.
    rewrite Hq. unfold AsyncQueue.get_nowait.
    destruct w; try (right; right; right; split; reflexivity).
    destruct (playback_queue g) as [m [|c l]]; cbn.
    + right; right; right; split; reflexivity.
    + left. exists c. split; reflexivity.
  - unfold handle_start_speaking.
    destruct (py_get data "message" JNull) as [e|m];
      [right; right; right; split; reflexivity|].
    destruct (eq_str m "Start speaking").
    + right; right; left. cbn. unfold flush. rewrite flush_items_empty. auto.
    + right; right; right; split; reflexivity.
  - right; right; right. unfold handle_recording_end.
    repeat break_match; cbn; auto.
  - right; right; right.
    destruct (on_message_unbound label p g) as (fl & ls & -> & _). auto.
  - unfold AsyncQueue.put_nowait.
    destruct (AsyncQueue.full (playback_queue g)); cbn.
    + right; right; right; auto.
    + right; left. exists c. auto.
Qed.

(** Whatever runs, the clips taken from the queue followed by those
    still in it are among those that were in it or were put into it,
    in the same order. *)
Lemma run_traffic : forall (evs : list (Event F)) sys,
  let '(sys', acts) := run F wave_open evs sys in
  Subseq (dequeued acts ++ AsyncQueue.items (playback_queue (globals sys')))
         (AsyncQueue.items (playback_queue (globals sys)) ++ enqueued acts).
Proof.
  induction evs as [|ev evs IH]; intros sys.
  - cbn. rewrite app_nil_r. apply Subseq_refl.
  - cbn [run]. pose proof (step_traffic ev sys) as Hs.
    destruct (step F wave_open ev sys) as [sys1 acts1].
    specialize (IH sys1).
    destruct (run F wave_open evs sys1) as [sys2 acts2].
    cbv zeta in Hs.
    destruct Hs as [(c & Hq & ->) | [(c & Hq & ->) | [(Hq & ->) | (Hq & ->)]]];
      cbn [app dequeued enqueued].
    + rewrite Hq. cbn [app]. apply Subseq_take. exact IH.
    + rewrite Hq, <- app_assoc in IH. exact IH.
    + rewrite Hq in IH. apply Subseq_app_skip. exact IH.
    + rewrite Hq in IH. exact IH.
Qed.

End Interrupt.

(** C2.  Time is counted in turns of the polling loop, one per
    [asyncio.sleep(0.05)].  (i) If POST / "Start speaking" is handled
    while a clip is playing, then whatever the handlers and feeds do
    before the worker wakes up, the worker's next turn, provided
    [sd.stop()] returns, ends the clip.  (ii) After that request, in
    every run of the program, the clips the worker takes from the queue
    are clips that were put into it after the request, in the order in
    which they were put: none of those queued before is played. *)
Theorem interrupt_stops_clip_and_discards_queue :
  forall (F : FloatOps) (wave_open : list byte -> result WavFile)
         (d : list (string * json)),
    dict_get d "message" = Some (JStr "Start speaking") ->
    (forall (s : Session F) (attempt : Z) (start : float F) (g : Globals)
            (others : list (Event F)) (o : Obs F),
        forallb (fun ev => negb (is_worker_event F ev)) others = true ->
        dev_stop_interrupt o = None ->
        let sys := fst (run F wave_open
                          (PostRoot (JDict d) :: others ++ [WorkerRuns o])
                          {| worker := PollSleep s attempt start;
                             globals := g |}) in
        in_clip (worker sys) = false
        /\ In LogInterrupted (stdout (globals sys)))
    /\
    (forall (sys : System F) (evs : list (Event F)),
        let sys1 := fst (step F wave_open (PostRoot (JDict d)) sys) in
        let acts := snd (run F wave_open evs sys1) in
        AsyncQueue.items (playback_queue (globals sys1)) = []
        /\ Subseq (dequeued acts) (enqueued acts)).
Proof.
  intros F wave_open d Hd. split.
  - intros s attempt start g others o Hothers Hstop.
    cbn [run step globals worker].
    destruct (start_speaking_effect d g Hd) as [Hset _].
    set (sys1 := {| worker := PollSleep s attempt start;
                    globals := snd (handle_start_speaking (JDict d) g) |}).
    pose proof (others_keep_event F wave_open others sys1 Hothers Hset) as Hk.
    assert (Happ : forall evs1 evs2 (sy : System F),
               fst (run F wave_open (evs1 ++ evs2) sy)
               = fst (run F wave_open evs2 (fst (run F wave_open evs1 sy)))).
    { induction evs1 as [|ev evs1 IH]; intros evs2 sy; [reflexivity|].
      cbn [app run]. destruct (step F wave_open ev sy) as [sy1 a1].
      specialize (IH evs2 sy1).
      destruct (run F wave_open (evs1 ++ evs2) sy1) as [sy2 a2].
      destruct (run F wave_open evs1 sy1) as [sy3 a3].
      cbn [fst] in *. exact IH. }
    specialize (Happ others [WorkerRuns o] sys1).
    destruct (run F wave_open (others ++ [WorkerRuns o]) sys1) as [sysN actsN].
    cbn [fst] in Happ |- *. rewrite Happ.
    destruct (run F wave_open others sys1) as [sys2 acts2].
    cbn [fst] in Hk |- *. destruct Hk as [Hw Hs].
    destruct sys2 as [w2 g2]. cbn [worker globals] in Hw, Hs. subst w2.
    subst sys1. cbn [run step worker globals worker_step].
    pose proof (poll_interrupted F s attempt start o g2 Hs Hstop) as Hp.
    destruct (poll F s attempt start o g2) as [w3 g3].
    cbn [fst snd worker globals] in *. exact Hp.
  - intros sys evs. cbv zeta.
    destruct (start_speaking_effect d (globals sys) Hd) as [_ Hempty].
    cbn [step fst globals]. split; [exact Hempty|].
    pose proof (run_traffic F wave_open evs
                  {| worker := worker sys;
                     globals := snd (handle_start_speaking (JDict d)
                                                           (globals sys)) |})
      as Hr.
    destruct (run F wave_open evs _) as [sys2 acts].
    cbn [snd globals] in *. rewrite Hempty in Hr. cbn [app] in Hr.
    eapply Subseq_app_inv_l. exact Hr.
Qed.

Lemma interrupt_stops_clip_and_discards_queue_witness :
  let sys :=
    fst (run Exact.ops two_clip_reader
           (PostRoot start_speaking
              :: [Put (JStr "new clip", Bytes clip_bytes)]
              ++ [WorkerRuns (quiet_obs Exact.ops (100 # 1) (100 # 1) (100 # 1))])
           {| worker := PollSleep (session_of Exact.ops 8000 8000 "hello world")
                                  1 (100 # 1);
              globals := two_clips |}) in
  in_clip (worker sys) = false /\ In LogInterrupted (stdout (globals sys)).
Proof.
  apply (proj1 (interrupt_stops_clip_and_discards_queue
                  Exact.ops two_clip_reader
                  [("message", JStr "Start speaking")]%string eq_refl)
           (session_of Exact.ops 8000 8000 "hello world") 1 (100 # 1)
           two_clips
           [Put (JStr "new clip", Bytes clip_bytes)]
           (quiet_obs Exact.ops (100 # 1) (100 # 1) (100 # 1)));
    reflexivity.
Defined.

(** C2 (as stated, refuted).  Two runs in binary64, each starting with
    two queued clips.  In the first the non-blocking [play] fails and
    the request arrives during the pause of line 128; in the second the
    request arrives during the polling loop and the [sd.stop()] of line
    115 fails.  Both times the event is set while the first clip is in
    hand, the blocking retry of line 130 then plays that clip to its
    end, the interruption is never reported and the whole text counts
    as spoken. *)
Lemma blocking_retry_ignores_interrupt :
  let sys0 := {| worker := @AwaitClip Binary64.ops None; globals := two_clips |} in
  let t := b64 100 1 in
  let quiet := quiet_obs Binary64.ops t t t in
  let before_a := fst (run Binary64.ops two_clip_reader
                         [WorkerRuns (flaky_play Binary64.ops t);
                          PostRoot start_speaking] sys0) in
  let after_a := fst (run Binary64.ops two_clip_reader
                        [WorkerRuns (flaky_play Binary64.ops t)] before_a) in
  let before_b := fst (run Binary64.ops two_clip_reader
                         [WorkerRuns quiet; PostRoot start_speaking] sys0) in
  let after_b := fst (run Binary64.ops two_clip_reader
                        [WorkerRuns (failing_stop Binary64.ops t);
                         WorkerRuns quiet] before_b) in
  (in_clip (worker before_a) = true
   /\ stop_playback_event (globals before_a) = true
   /\ stdout (globals after_a)
      = [LogClip 8000 8000 1; LogPortAudioReset PortAudioError;
         LogStartSpeaking; LogSpoken "first clip"]
   /\ spoken_text (globals after_a) = "first clip"%string)
  /\
  (in_clip (worker before_b) = true
   /\ stop_playback_event (globals before_b) = true
   /\ stdout (globals after_b)
      = [LogClip 8000 8000 1; LogStartSpeaking;
         LogPortAudioReset PortAudioError; LogSpoken "first clip"]
   /\ spoken_text (globals after_b) = "first clip"%string).
Proof.
  cbv zeta. repeat split; vm_compute; reflexivity.
Qed.

(** The scenario of the specification in binary64: while a clip plays
    and two more are queued, POST / arrives and a new clip is put
    afterwards.  The playing clip is interrupted at the next polling
    turn and the only clip taken from the queue afterwards is the new
    one. *)
Lemma interrupt_scenario :
  let t := b64 100 1 in
  let quiet := quiet_obs Binary64.ops t t t in
  let sys0 := {| worker := PollSleep (session_of Binary64.ops 8000 8000
                                                 "hello world") 1 t;
                 globals := two_clips |} in
  let r := run Binary64.ops two_clip_reader
             [PostRoot start_speaking; WorkerRuns quiet;
              Put (JStr "new clip", Bytes clip_bytes); WorkerRuns quiet] sys0 in
  dequeued (snd r) = [(JStr "new clip", Bytes clip_bytes)]
  /\ stdout (globals (fst r))
     = [LogStartSpeaking; LogInterrupted; LogFinished; LogClip 8000 8000 1]
  /\ in_clip (worker (fst r)) = true.
Proof.
  cbv zeta. repeat split; vm_compute; reflexivity.
Qed.

(** The scenario of the specification in binary64: "hello world" with
    one second of audio, not interrupted, is reported in full. *)
Lemma hello_world_scenario :
  let s := session_of Binary64.ops 8000 8000 "hello world" in
  let o := quiet_obs Binary64.ops (b64 100 1) (b64 101 1) (b64 101 1) in
  spoken_text (snd (poll Binary64.ops s 1 (b64 100 1) o initial_globals))
  = "hello world"%string.
Proof.
  vm_compute; reflexivity.
Qed.

(* ------------------------------------------------------------------ *)
(** * Properties of the WAV decoder                                    *)
(* ------------------------------------------------------------------ *)

Lemma int16_le_range : forall lo hi : byte,
  -32768 <= int16_le lo hi <= 32767.
Proof.
  intros lo hi. unfold int16_le.
  pose proof (Byte.to_N_bounded lo) as Hlo.
  pose proof (Byte.to_N_bounded hi) as Hhi.
  destruct (Z.ltb_spec (Z.of_N (to_N lo) + 256 * Z.of_N (to_N hi)) 32768); lia.
Qed.

(** An even number of bytes decodes to half as many samples, each an
    int16. *)
Lemma frombuffer_int16_even : forall (k : nat) (b : list byte),
  List.length b = (2 * k)%nat ->
  exists l, frombuffer_int16 b = ret l
            /\ List.length l = k
            /\ Forall (fun z => -32768 <= z <= 32767) l.
Proof.
  induction k as [|k IH]; intros b Hb.
  - destruct b; [|discriminate]. exists []. cbn. auto.
  - destruct b as [|lo [|hi rest]]; cbn [List.length] in Hb; try lia.
    destruct (IH rest) as (l & Hl & Hlen & Hall); [lia|].
    exists (int16_le lo hi :: l). cbn [frombuffer_int16]. rewrite Hl. cbn.
    repeat split; [congruence|].
    constructor; [apply int16_le_range | exact Hall].
Qed.

Lemma frombuffer_int16_odd : forall (k : nat) (b : list byte),
  List.length b = (2 * k + 1)%nat ->
  frombuffer_int16 b = raise ValueError.
Proof.
  induction k as [|k IH]; intros b Hb.
  - destruct b as [|x [|y r]]; cbn [List.length] in Hb; try lia. reflexivity.
  - destruct b as [|lo [|hi rest]]; cbn [List.length] in Hb; try lia.
    cbn [frombuffer_int16].
    rewrite (IH rest) by lia. reflexivity.
Qed.

(** X1.  A WAV file that holds [k] frames of [n_ch] >= 1 channels of
    16-bit samples decodes to its sample rate and an array of [k] rows
    and [n_ch] channels: [len(audio)] counts frames, not samples. *)
Theorem decode_wav_counts_frames :
  forall (wave_open : list byte -> result WavFile) (b : list byte)
         (wf : WavFile) (k : Z),
    wave_open b = ret wf ->
    1 <= nchannels wf ->
    0 <= k ->
    Z.of_nat (List.length (frames wf)) = 2 * (nchannels wf * k) ->
    exists a,
      _decode_wav wave_open b = ret (framerate wf, a)
      /\ array_len a = k
      /\ array_channels a = nchannels wf
      /\ Z.of_nat (List.length (samples a)) = nchannels wf * k.
Proof.
  intros wave_open b wf k Hw Hch Hk Hlen.
  destruct (frombuffer_int16_even (Z.to_nat (nchannels wf * k)) (frames wf))
    as (l & Hl & Hn & _); [lia|].
  unfold _decode_wav. rewrite Hw. cbn [bind ret]. rewrite Hl. cbn [bind ret].
  rewrite length_map, Hn, Z2Nat.id by lia.
  destruct (Z.gtb_spec (nchannels wf) 1) as [Hgt | Hle].
  - rewrite Z.mul_comm, Z_mod_mult. cbn [Z.eqb].
    eexists; split; [reflexivity|].
    unfold array_len, array_channels; cbn.
    rewrite length_map, Hn, Z2Nat.id by lia.
    repeat split; try reflexivity;
      [rewrite Z.mul_comm; apply Z.div_mul; lia | lia].
  - assert (H1 : nchannels wf = 1) by lia.
    eexists; split; [reflexivity|].
    unfold array_len, array_channels; cbn.
    rewrite length_map, Hn, Z2Nat.id by lia.
    rewrite H1. repeat split; lia.
Qed.

Lemma decode_wav_counts_frames_witness :
  exists a,
    _decode_wav (reads_as clip_bytes
                   {| framerate := 44100; nchannels := 2;
                      frames := repeat x00%byte 12 |})
                clip_bytes
    = ret (44100, a)
    /\ array_len a = 3
    /\ array_channels a = 2
    /\ Z.of_nat (List.length (samples a)) = 2 * 3.
Proof.
  apply (decode_wav_counts_frames
           (reads_as clip_bytes
              {| framerate := 44100; nchannels := 2;
                 frames := repeat x00%byte 12 |})
           clip_bytes
           {| framerate := 44100; nchannels := 2;
              frames := repeat x00%byte 12 |} 3);
    [reflexivity | cbn; lia | lia | reflexivity].
Defined.

(** X2.  [_decode_wav] has no handler of its own: an exception of the
    WAV reader comes out unchanged, frame data of odd length raises
    ValueError in [np.frombuffer], and a sample count that is not a
    multiple of the channel count raises ValueError in [reshape]. *)
Theorem decode_wav_errors :
  forall (wave_open : list byte -> result WavFile) (b : list byte),
    (forall e, wave_open b = raise e -> _decode_wav wave_open b = raise e)
    /\
    (forall wf, wave_open b = ret wf ->
                Nat.odd (List.length (frames wf)) = true ->
                _decode_wav wave_open b = raise ValueError)
    /\
    (forall wf, wave_open b = ret wf ->
                Nat.even (List.length (frames wf)) = true ->
                1 < nchannels wf ->
                (Z.of_nat (List.length (frames wf)) / 2) mod nchannels wf <> 0 ->
                _decode_wav wave_open b = raise ValueError).
Proof.
  intros wave_open b. split; [|split].
  - intros e He. unfold _decode_wav. rewrite He. reflexivity.
  - intros wf Hw Hodd. unfold _decode_wav. rewrite Hw. cbn [bind ret].
    apply Nat.odd_spec in Hodd. destruct Hodd as [k Hk].
    rewrite (frombuffer_int16_odd k) by exact Hk. reflexivity.
  - intros wf Hw Heven Hch Hmod. unfold _decode_wav. rewrite Hw. cbn [bind ret].
    apply Nat.even_spec in Heven. destruct Heven as [k Hk].
    destruct (frombuffer_int16_even k (frames wf) Hk) as (l & Hl & Hn & _).
    rewrite Hl. cbn [bind ret].
    destruct (Z.gtb_spec (nchannels wf) 1) as [_ | Hle]; [|lia].
    rewrite length_map, Hn.
    replace (Z.of_nat (List.length (frames wf)) / 2) with (Z.of_nat k) in Hmod.
    + apply Z.eqb_neq in Hmod. rewrite Hmod. reflexivity.
    + rewrite Hk, Nat2Z.inj_mul, Z.mul_comm. cbn [Z.of_nat].
      symmetry. apply Z.div_mul. lia.
Qed.

Lemma decode_wav_errors_witness :
  _decode_wav (reads_as clip_bytes
                 {| framerate := 8000; nchannels := 2;
                    frames := repeat x00%byte 6 |})
              clip_bytes
  = raise ValueError.
Proof.
  apply (proj2 (proj2 (decode_wav_errors
                  (reads_as clip_bytes
                     {| framerate := 8000; nchannels := 2;
                        frames := repeat x00%byte 6 |})
                  clip_bytes))
           {| framerate := 8000; nchannels := 2;
              frames := repeat x00%byte 6 |});
    [reflexivity | reflexivity | cbn; lia | cbn; discriminate].
Defined.

(** X3.  Every sample of a decoded clip lies in [-1, 1): it is an int16
    divided by 32768. *)
Theorem decoded_samples_are_normalized :
  forall (wave_open : list byte -> result WavFile) (b : list byte)
         (rate : Z) (a : ndarray),
    _decode_wav wave_open b = ret (rate, a) ->
    Forall (fun q : Q => (-1 <= q)%Q /\ (q < 1)%Q) (samples a).
Proof.
  intros wave_open b rate a H. unfold _decode_wav in H.
  destruct (wave_open b) as [e | wf]; [discriminate|]. cbn [bind ret] in H.
  destruct (frombuffer_int16 (frames wf)) as [e | l] eqn:Hl; [discriminate|].
  cbn [bind ret] in H.
  assert (Hr : Forall (fun z => -32768 <= z <= 32767) l).
  { clear H. remember (frames wf) as fr eqn:E. clear E.
    revert l Hl.
    assert (G : forall (n : nat) (fr : list byte) l,
               (List.length fr <= n)%nat -> frombuffer_int16 fr = ret l ->
               Forall (fun z => -32768 <= z <= 32767) l).
    { induction n as [|n IH]; intros fr' l Hn Hl.
      - destruct fr'; [|cbn in Hn; lia]. injection Hl as <-. constructor.
      - destruct fr' as [|lo [|hi rest]].
        + injection Hl as <-. constructor.
        + discriminate.
        + cbn [frombuffer_int16] in Hl.
          destruct (frombuffer_int16 rest) as [e | vs] eqn:Hvs; [discriminate|].
          injection Hl as <-.
          constructor; [apply int16_le_range|].
          apply (IH rest); [cbn in Hn; lia | exact Hvs]. }
    intros l Hl. exact (G (List.length fr) fr l (Nat.le_refl _) Hl). }
  assert (Hs : Forall (fun q : Q => (-1 <= q)%Q /\ (q < 1)%Q)
                      (map (fun z => Qmake z 32768) l)).
  { apply Forall_map. eapply Forall_impl; [|exact Hr].
    intros z Hz. cbv beta in Hz.
    split; [unfold Qle | unfold Qlt]; cbn [Qnum Qden]; lia. }
  destruct (nchannels wf >? 1).
  - destruct (_ =? 0); [|discriminate]. injection H as _ <-. exact Hs.
  - injection H as _ <-. exact Hs.
Qed.

Lemma decoded_samples_are_normalized_witness :
  Forall (fun q : Q => (-1 <= q)%Q /\ (q < 1)%Q)
         (samples {| samples := [(-32768) # 32768; 32767 # 32768];
                     columns := None |}).
Proof.
  apply (decoded_samples_are_normalized
           (reads_as clip_bytes
              {| framerate := 8000; nchannels := 1;
                 frames := [x00; x80; xff; x7f]%byte |})
           clip_bytes 8000
           {| samples := [(-32768) # 32768; 32767 # 32768];
              columns := None |}).
  reflexivity.
Defined.

(* ------------------------------------------------------------------ *)
(** * Further properties of the playback worker                        *)
(* ------------------------------------------------------------------ *)

Section WorkerInvariants.

Variable F : FloatOps.
Variable wave_open : list byte -> result WavFile.

Lemma report_event : forall (s : Session F) start o g,
  stop_playback_event (snd (report F s start o g)) = stop_playback_event g.
Proof.
  intros s start o g. unfold report. repeat break_match; reflexivity.
Qed.

Lemma on_device_error_event : forall (s : Session F) attempt start e o g,
  stop_playback_event (snd (on_device_error F s attempt start e o g))
  = stop_playback_event g.
Proof.
  intros s attempt start e o g. unfold on_device_error.
  repeat break_match; try reflexivity.
  rewrite report_event. reflexivity.
Qed.

Lemma poll_event : forall (s : Session F) attempt start o g,
  stop_playback_event (snd (poll F s attempt start o g))
  = stop_playback_event g.
Proof.
  intros s attempt start o g. unfold poll.
  repeat break_match; try reflexivity;
    rewrite ?on_device_error_event, ?report_event; cbn; congruence.
Qed.

Lemma start_clip_event : forall start o clip g,
  stop_playback_event (snd (start_clip F wave_open start o clip g)) = false.
Proof.
  intros start o [text a] g. unfold start_clip, play_attempt.
  repeat break_match; try reflexivity;
    rewrite ?on_device_error_event, ?poll_event; reflexivity.
Qed.

(** The worker never sets the interrupt event. *)
Lemma worker_step_event : forall o (w : Worker F) g,
  stop_playback_event (snd (worker_step F wave_open o w g)) = true ->
  stop_playback_event g = true.
Proof.
  intros o w g. unfold worker_step.
  destruct w as [start | s attempt start | s attempt start | e].
  - destruct (AsyncQueue.get_nowait (playback_queue g)) as [e | [c q]];
      [auto|].
    rewrite start_clip_event. discriminate.
  - rewrite poll_event. auto.
  - unfold after_settle. break_match; [auto|]. rewrite report_event. auto.
  - auto.
Qed.

Lemma slice_to_prefix : forall (A : Type) (l : list A) (n : Z),
  exists k : nat, slice_to l n = firstn k l.
Proof.
  intros A l n. unfold slice_to. destruct (0 <=? n); eauto.
Qed.

Lemma report_prefix : forall (s : Session F) start o g,
  let g' := snd (report F s start o g) in
  spoken_text g' = spoken_text g
  \/ exists k : nat, spoken_text g' = py_join (firstn k (words s)).
Proof.
  intros s start o g. unfold report.
  destruct start as [st|]; [|left; reflexivity].
  destruct (spoken_words F _ _) as [e | n]; [left; reflexivity|].
  right. destruct (slice_to_prefix _ (words s) n) as [k Hk].
  exists k. cbn. rewrite Hk. reflexivity.
Qed.

Lemma on_device_error_prefix : forall (s : Session F) attempt start e o g,
  let g' := snd (on_device_error F s attempt start e o g) in
  spoken_text g' = spoken_text g
  \/ exists k : nat, spoken_text g' = py_join (firstn k (words s)).
Proof.
  intros s attempt start e o g. unfold on_device_error.
  repeat break_match; try (left; reflexivity).
  apply (report_prefix s start o (print (LogPortAudioFailure e) g)).
Qed.

End WorkerInvariants.

(** X4.  Whatever the device and the clock do, a turn of the worker on
    the clip it holds leaves [spoken_text] as it was or sets it to a
    prefix of that clip's words, joined by single spaces: the worker
    never reports a word the clip does not have, nor words out of
    order. *)
Theorem spoken_text_is_always_a_prefix :
  forall (F : FloatOps) (wave_open : list byte -> result WavFile)
         (o : Obs F) (w : Worker F) (s : Session F) (g : Globals),
    (exists attempt start, w = PollSleep s attempt start)
    \/ (exists attempt start, w = SettleSleep s attempt start) ->
    let g' := snd (worker_step F wave_open o w g) in
    spoken_text g' = spoken_text g
    \/ exists k : nat,
         (k <= List.length (words s))%nat
         /\ spoken_text g' = py_join (firstn k (words s)).
Proof.
  intros F wave_open o w s g Hw.
  assert (H : let g' := snd (worker_step F wave_open o w g) in
              spoken_text g' = spoken_text g
              \/ exists k : nat, spoken_text g' = py_join (firstn k (words s))).
  { destruct Hw as [(attempt & start & ->) | (attempt & start & ->)];
      cbn [worker_step].
    - unfold poll. repeat break_match; try (left; reflexivity).
      + apply on_device_error_prefix.
      + apply (report_prefix F s (Some start) o (print LogInterrupted g)).
      + apply report_prefix.
    - unfold after_settle. break_match; [left; reflexivity|].
      apply report_prefix. }
  cbv zeta in *. destruct H as [H | [k Hk]]; [left; exact H|].
  right. destruct (Nat.le_gt_cases k (List.length (words s))) as [Hle | Hgt].
  - exists k. auto.
  - exists (List.length (words s)). split; [lia|].
    rewrite Hk, firstn_all, firstn_all2 by lia. reflexivity.
Qed.

Lemma spoken_text_is_always_a_prefix_witness :
  let s := session_of Exact.ops 8000 8000 "hello world" in
  let g' := snd (worker_step Exact.ops two_clip_reader
                   (quiet_obs Exact.ops (100 # 1) (100 # 1) (100 # 1))
                   (PollSleep s 1 (100 # 1)) initial_globals) in
  spoken_text g' = spoken_text initial_globals
  \/ exists k : nat,
       (k <= List.length (words s))%nat
       /\ spoken_text g' = py_join (firstn k (words s)).
Proof.
  apply (spoken_text_is_always_a_prefix Exact.ops two_clip_reader
           (quiet_obs Exact.ops (100 # 1) (100 # 1) (100 # 1))
           (PollSleep (session_of Exact.ops 8000 8000 "hello world")
                      1 (100 # 1))
           (session_of Exact.ops 8000 8000 "hello world") initial_globals).
  left. exists 1, (100 # 1). reflexivity.
Defined.

(** X5.  An interrupt raised while the worker is idle is forgotten: the
    clip put on the queue after the request is the one the worker takes
    next, and taking it clears the event, so that clip is not stopped
    by the earlier request. *)
Theorem idle_interrupt_is_forgotten :
  forall (F : FloatOps) (wave_open : list byte -> result WavFile)
         (d : list (string * json)) (c : Clip) (start : option (float F))
         (o : Obs F) (g : Globals),
    dict_get d "message" = Some (JStr "Start speaking") ->
    let r := run F wave_open [PostRoot (JDict d); Put c; WorkerRuns o]
                 {| worker := AwaitClip start; globals := g |} in
    dequeued (snd r) = [c]
    /\ enqueued (snd r) = [c]
    /\ AsyncQueue.items (playback_queue (globals (fst r))) = []
    /\ stop_playback_event (globals (fst r)) = false.
Proof.
  intros F wave_open d c start o g Hd.
  destruct (start_speaking_effect d g Hd) as [_ Hempty].
  cbn [run step worker globals].
  set (g1 := snd (handle_start_speaking (JDict d) g)) in *.
  destruct (playback_queue g1) as [m l] eqn:Hq. cbn in Hempty. subst l.
  assert (Hput : AsyncQueue.put_nowait (AsyncQueue.Make m []) c
                 = ret (AsyncQueue.Make m [c])).
  { unfold AsyncQueue.put_nowait, AsyncQueue.full, AsyncQueue.qsize. cbn.
    destruct (Z.leb_spec m 0) as [H | H]; [reflexivity|].
    destruct (Z.leb_spec m 0); [lia | reflexivity]. }
  rewrite Hput. cbn [ret worker globals set_queue playback_queue
                     AsyncQueue.get_nowait AsyncQueue.items worker_step].
  pose proof (start_clip_event F wave_open start o c
                (set_queue (AsyncQueue.Make m [])
                           (set_queue (AsyncQueue.Make m [c]) g1))) as Hev.
  pose proof (start_clip_queue F wave_open start o c
                (set_queue (AsyncQueue.Make m [])
                           (set_queue (AsyncQueue.Make m [c]) g1))) as Hqu.
  cbn [AsyncQueue.maxsize] in *.
  destruct (start_clip F wave_open start o c _) as [w' g'].
  cbn [fst snd globals app dequeued enqueued] in *.
  rewrite Hqu. auto.
Qed.

Lemma idle_interrupt_is_forgotten_witness :
  let r := run Exact.ops two_clip_reader
             [PostRoot start_speaking;
              Put (JStr "hello world", Bytes clip_bytes);
              WorkerRuns (quiet_obs Exact.ops (100 # 1) (100 # 1) (100 # 1))]
             {| worker := AwaitClip None; globals := two_clips |} in
  dequeued (snd r) = [(JStr "hello world", Bytes clip_bytes)]
  /\ enqueued (snd r) = [(JStr "hello world", Bytes clip_bytes)]
  /\ AsyncQueue.items (playback_queue (globals (fst r))) = []
  /\ stop_playback_event (globals (fst r)) = false.
Proof.
  apply (idle_interrupt_is_forgotten Exact.ops two_clip_reader
           [("message", JStr "Start speaking")]%string
           (JStr "hello world", Bytes clip_bytes) None
           (quiet_obs Exact.ops (100 # 1) (100 # 1) (100 # 1)) two_clips).
  reflexivity.
Defined.





Lemma no_failure_line_app : forall out l,
  no_failure_line out ->
  (forall e, l <> LogPortAudioFailure e) ->
  no_failure_line (out ++ [l]).
Proof.
  intros out l Hout Hl e Hin. apply in_app_or in Hin.
  destruct Hin as [Hin | [Hin | []]]; [exact (Hout e Hin) | exact (Hl e Hin)].
Qed.

Ltac no_failure :=
  repeat match goal with
         | |- no_failure_line (stdout (print _ _)) =>
             apply no_failure_line_app; [|intros ?; discriminate]
         | |- no_failure_line (_ ++ [_]) =>
             apply no_failure_line_app; [|intros ?; discriminate]
         | |- no_failure_line (stdout (set_spoken_text _ _)) =>
             change (stdout (set_spoken_text ?s ?g)) with (stdout g)
         | |- no_failure_line (stdout (set_event _ _)) =>
             change (stdout (set_event ?b ?g)) with (stdout g)
         | |- no_failure_line (stdout (set_queue _ _)) =>
             change (stdout (set_queue ?q ?g)) with (stdout g)
         end;
  try assumption.

Section FirstAttempt.

Variable F : FloatOps.
Variable wave_open : list byte -> result WavFile.

Lemma report_inv : forall (s : Session F) start o g,
  no_failure_line (stdout g) -> attempt_inv (report F s start o g).
Proof.
  intros s start o g Hg. unfold report, attempt_inv.
  repeat break_match; cbn [fst snd first_attempt]; split; auto;
    cbn [stdout print set_spoken_text]; no_failure.
Qed.

Lemma on_device_error_inv : forall (s : Session F) start e o g,
  session_ok s -> no_failure_line (stdout g) ->
  attempt_inv (on_device_error F s 1 start e o g).
Proof.
  intros s start e o g Hs Hg. unfold on_device_error.
  change (1 =? 2) with false. cbv iota.
  repeat break_match; unfold attempt_inv; cbn [fst snd first_attempt];
    split; auto; no_failure.
Qed.

Lemma poll_inv : forall (s : Session F) start o g,
  session_ok s -> no_failure_line (stdout g) ->
  attempt_inv (poll F s 1 start o g).
Proof.
  intros s start o g Hs Hg. unfold poll.
  repeat break_match.
  - apply on_device_error_inv; assumption.
  - apply report_inv. no_failure.
  - apply report_inv. assumption.
  - unfold attempt_inv; cbn; auto.
Qed.

Lemma start_clip_inv : forall start o clip g,
  no_failure_line (stdout g) ->
  attempt_inv (start_clip F wave_open start o clip g).
Proof.
  intros start o [text a] g Hg. unfold start_clip, play_attempt.
  repeat break_match;
    try (unfold attempt_inv; cbn [fst snd first_attempt]; split; auto;
         no_failure; fail);
    try (apply on_device_error_inv; [reflexivity | no_failure]);
    try (apply poll_inv; [reflexivity | no_failure]).
Qed.

Lemma worker_step_inv : forall o (w : Worker F) g,
  first_attempt w -> no_failure_line (stdout g) ->
  attempt_inv (worker_step F wave_open o w g).
Proof.
  intros o w g Hw Hg. unfold worker_step.
  destruct w as [start | s attempt start | s attempt start | e].
  - destruct (AsyncQueue.get_nowait (playback_queue g)) as [e | [c q]].
    + split; assumption.
    + apply start_clip_inv. no_failure.
  - destruct Hw as [-> Hs]. apply poll_inv; assumption.
  - unfold after_settle. break_match.
    + split; [exact I | assumption].
    + apply report_inv. assumption.
  - split; assumption.
Qed.

Lemma other_tasks_inv : forall (ev : Event F) (sys : System F),
  is_worker_event F ev = false ->
  no_failure_line (stdout (globals sys)) ->
  let sys' := fst (step F wave_open ev sys) in
  worker sys' = worker sys
  /\ spoken_text (globals sys') = spoken_text (globals sys)
  /\ no_failure_line (stdout (globals sys')).
Proof.
  intros ev [w g] Hev Hg. destruct ev as [o | data | data | label p | c];
    cbn in Hev; try discriminate; cbn [step globals worker fst] in *.
  - unfold handle_start_speaking.
    repeat break_match; cbn [snd]; repeat split; auto;
      cbn [stdout print set_event set_queue]; no_failure.
  - unfold handle_recording_end.
    repeat break_match; cbn [snd]; repeat split; auto;
      cbn [stdout print]; no_failure.
  - destruct (on_message_unbound label p g) as (fl & ls & Hm & _).
    unfold on_message, accept_message, process_audio, module_enqueue_clip.
    repeat break_match; cbn [snd]; repeat split; auto; no_failure.
  - destruct (AsyncQueue.put_nowait (playback_queue g) c); cbn; auto.
Qed.

Lemma run_inv : forall (evs : list (Event F)) (sys : System F),
  first_attempt (worker sys) ->
  no_failure_line (stdout (globals sys)) ->
  let sys' := fst (run F wave_open evs sys) in
  first_attempt (worker sys') /\ no_failure_line (stdout (globals sys')).
Proof.
  induction evs as [|ev evs IH]; intros sys Hw Hg; [cbn; auto|].
  cbn [run].
  assert (H1 : first_attempt (worker (fst (step F wave_open ev sys)))
               /\ no_failure_line
                    (stdout (globals (fst (step F wave_open ev sys))))).
  { destruct (is_worker_event F ev) eqn:Hev.
    - destruct ev as [o | | | |]; try discriminate.
      destruct sys as [w g]. cbn [step worker globals] in *.
      pose proof (worker_step_inv o w g Hw Hg) as Hi.
      destruct (worker_step F wave_open o w g) as [w' g'].
      exact Hi.
    - destruct (other_tasks_inv ev sys Hev Hg) as (Hw' & _ & Hg').
      split; [rewrite Hw'; exact Hw | exact Hg']. }
  destruct (step F wave_open ev sys) as [sys1 acts1]. cbn [fst] in H1.
  destruct H1 as [Hw1 Hg1]. specialize (IH sys1 Hw1 Hg1).
  destruct (run F wave_open evs sys1) as [sys2 acts2]. exact IH.
Qed.

End FirstAttempt.

(** X7.  In every run of the program from its initial state the worker
    is in the first of its two attempts whenever it holds a clip, with
    the word duration computed on line 106, and the line "PortAudio
    failure" of line 124 is never printed: the branch [attempt == 2] is
    unreachable. *)
Theorem second_attempt_is_never_made :
  forall (F : FloatOps) (wave_open : list byte -> result WavFile)
         (evs : list (Event F)),
    let sys := fst (run F wave_open evs (initial_system F)) in
    first_attempt (worker sys)
    /\ no_failure_line (stdout (globals sys)).
Proof.
  intros F wave_open evs.
  apply (run_inv F wave_open evs (initial_system F)).
  - exact I.
  - intros e [].
Qed.

Section Traffic.

Variable F : FloatOps.
Variable wave_open : list byte -> result WavFile.

(** Queue traffic of a step that does not drain. *)
Lemma step_traffic_no_drain : forall (ev : Event F) sys,
  drains ev = false ->
  let '(sys', acts) := step F wave_open ev sys in
  dequeued acts ++ AsyncQueue.items (playback_queue (globals sys'))
  = AsyncQueue.items (playback_queue (globals sys)) ++ enqueued acts.
Proof.
  intros ev [w g] Hev. destruct ev as [o | data | data | label p | c];
    cbn [step globals worker].
  - pose proof (worker_step_queue F wave_open o w g) as Hq.
    destruct (worker_step F wave_open o w g) as [w' g']. cbn [snd globals] in *.
    rewrite Hq. unfold AsyncQueue.get_nowait.
    destruct w; try (cbn; rewrite app_nil_r; reflexivity).
    destruct (playback_queue g) as [m [|c l]]; cbn;
      rewrite ?app_nil_r; reflexivity.
  - cbn [drains] in Hev. unfold is_start_speaking in Hev.
    unfold handle_start_speaking.
    destruct (py_get data "message" JNull) as [e|m];
      [cbn; rewrite app_nil_r; reflexivity|].
    rewrite Hev. cbn; rewrite app_nil_r; reflexivity.
  - unfold handle_recording_end.
    repeat break_match; cbn; rewrite app_nil_r; reflexivity.
  - destruct (on_message_unbound label p g) as (fl & ls & -> & _).
    cbn; rewrite app_nil_r; reflexivity.
  - unfold AsyncQueue.put_nowait.
    destruct (AsyncQueue.full (playback_queue g)); cbn;
      rewrite ?app_nil_r; reflexivity.
Qed.

Lemma dequeued_app : forall a b, dequeued (a ++ b) = dequeued a ++ dequeued b.
Proof.
  induction a as [|[c|c] a IH]; intros b; cbn; rewrite ?IH; reflexivity.
Qed.

Lemma enqueued_app : forall a b, enqueued (a ++ b) = enqueued a ++ enqueued b.
Proof.
  induction a as [|[c|c] a IH]; intros b; cbn; rewrite ?IH; reflexivity.
Qed.

Lemma run_conserves : forall (evs : list (Event F)) sys,
  forallb keeps_queue evs = true ->
  let '(sys', acts) := run F wave_open evs sys in
  dequeued acts ++ AsyncQueue.items (playback_queue (globals sys'))
  = AsyncQueue.items (playback_queue (globals sys)) ++ enqueued acts.
Proof.
  induction evs as [|ev evs IH]; intros sys Hevs.
  - cbn. rewrite app_nil_r. reflexivity.
  - cbn [forallb] in Hevs. apply andb_prop in Hevs as [Hev Hevs].
    unfold keeps_queue in Hev. apply negb_true_iff in Hev.
    cbn [run]. pose proof (step_traffic_no_drain ev sys Hev) as Hs.
    destruct (step F wave_open ev sys) as [sys1 acts1].
    specialize (IH sys1 Hevs).
    destruct (run F wave_open evs sys1) as [sys2 acts2].
    rewrite dequeued_app, enqueued_app, <- app_assoc, IH.
    rewrite !app_assoc. f_equal. exact Hs.
Qed.

End Traffic.

(** X8.  As long as no POST / with "Start speaking" is handled, no clip
    is lost, duplicated or reordered: the clips the worker has taken,
    followed by those still queued, are exactly the clips that were
    queued at the start followed by those put since. *)
Theorem queue_is_fifo_without_interrupt :
  forall (F : FloatOps) (wave_open : list byte -> result WavFile)
         (evs : list (Event F)) (sys : System F),
    forallb keeps_queue evs = true ->
    let r := run F wave_open evs sys in
    dequeued (snd r) ++ AsyncQueue.items (playback_queue (globals (fst r)))
    = AsyncQueue.items (playback_queue (globals sys)) ++ enqueued (snd r).
Proof.
  intros F wave_open evs sys Hevs.
  pose proof (run_conserves F wave_open evs sys Hevs) as H.
  cbv zeta. destruct (run F wave_open evs sys) as [sys' acts]. exact H.
Qed.

Lemma queue_is_fifo_without_interrupt_witness :
  let r := run Exact.ops two_clip_reader
             [Put (JStr "third clip", Bytes clip_bytes);
              WorkerRuns (quiet_obs Exact.ops (100 # 1) (102 # 1) (102 # 1));
              PostRecording start_speaking;
              WorkerRuns (quiet_obs Exact.ops (103 # 1) (104 # 1) (104 # 1))]
             {| worker := AwaitClip None; globals := two_clips |} in
  dequeued (snd r) ++ AsyncQueue.items (playback_queue (globals (fst r)))
  = AsyncQueue.items (playback_queue two_clips) ++ enqueued (snd r).
Proof.
  apply (queue_is_fifo_without_interrupt Exact.ops two_clip_reader
           [Put (JStr "third clip", Bytes clip_bytes);
            WorkerRuns (quiet_obs Exact.ops (100 # 1) (102 # 1) (102 # 1));
            PostRecording start_speaking;
            WorkerRuns (quiet_obs Exact.ops (103 # 1) (104 # 1) (104 # 1))]
           {| worker := AwaitClip None; globals := two_clips |}).
  reflexivity.
Defined.

(** X9.  Only the worker writes [spoken_text] and only a POST / with
    "Start speaking" sets the interrupt event: a step of any other task
    leaves [spoken_text] as it was, and a step after which the event is
    newly set is such a request. *)
Theorem globals_have_single_writers :
  forall (F : FloatOps) (wave_open : list byte -> result WavFile)
         (ev : Event F) (sys : System F),
    let sys' := fst (step F wave_open ev sys) in
    (is_worker_event F ev = false ->
       spoken_text (globals sys') = spoken_text (globals sys)
       /\ worker sys' = worker sys)
    /\ (stop_playback_event (globals sys) = false ->
        stop_playback_event (globals sys') = true ->
        drains ev = true).
Proof.
  intros F wave_open ev [w g]. cbv zeta. split.
  - intros Hev. destruct ev as [o | data | data | label p | c];
      cbn in Hev; try discriminate; cbn [step globals worker fst].
    + unfold handle_start_speaking. repeat break_match; auto.
    + unfold handle_recording_end. repeat break_match; auto.
    + destruct (on_message_unbound label p g) as (fl & ls & -> & _). auto.
    + destruct (AsyncQueue.put_nowait (playback_queue g) c); cbn; auto.
  - intros H0 H1. destruct ev as [o | data | data | label p | c];
      cbn [step globals worker fst drains] in *; unfold is_start_speaking.
    + pose proof (worker_step_event F wave_open o w g) as He.
      destruct (worker_step F wave_open o w g) as [w' g'].
      cbn [fst snd globals] in *. rewrite (He H1) in H0. discriminate.
    + unfold handle_start_speaking in H1.
      destruct (py_get data "message" JNull) as [e | m];
        [cbn in H1; congruence|].
      destruct (eq_str m "Start speaking"); [reflexivity|].
      cbn in H1; congruence.
    + unfold handle_recording_end in H1.
      destruct (py_get data "message" JNull) as [e | m];
        [cbn in H1; congruence|].
      destruct (eq_str m "Recording Complete"); cbn in H1; congruence.
    + destruct (on_message_unbound label p g) as (fl & ls & Hm & _).
      rewrite Hm in H1. cbn in H1. congruence.
    + destruct (AsyncQueue.put_nowait (playback_queue g) c);
        cbn in H1; congruence.
Qed.

Lemma globals_have_single_writers_witness :
  let sys := {| worker := @AwaitClip Exact.ops None; globals := two_clips |} in
  let sys' := fst (step Exact.ops two_clip_reader
                        (PostRecording start_speaking) sys) in
  spoken_text (globals sys') = spoken_text (globals sys)
  /\ worker sys' = worker sys.
Proof.
  apply (proj1 (globals_have_single_writers Exact.ops two_clip_reader
                  (PostRecording start_speaking)
                  {| worker := AwaitClip None; globals := two_clips |})).
  reflexivity.
Defined.

(** X10.  A clip whose text has no word (empty or only white space)
    reports the empty string whenever its playback ends, whatever its
    duration and the elapsed time, and prints "Playback finished". *)
Theorem wordless_clip_reports_nothing :
  forall (F : FloatOps) (s : Session F) (attempt : Z) (start : float F)
         (o : Obs F) (g : Globals),
    fnonzero F (of_int F 0) = false ->
    session_ok s ->
    words s = [] ->
    playback_ends s start o g ->
    exists g',
      poll F s attempt start o g = (AwaitClip (Some start), g')
      /\ spoken_text g' = ""%string
      /\ last (stdout g') LogInterrupted = LogFinished.
Proof.
  intros F s attempt start o g Hz Hok Hw Hends.
  rewrite (poll_ends F s attempt start o g Hends).
  unfold session_ok in Hok. rewrite Hw in Hok.
  unfold report, spoken_words. rewrite Hok, Hz, Hw. cbn.
  eexists; split; [reflexivity|]. split; [reflexivity|].
  cbn. apply last_last.
Qed.

Lemma wordless_clip_reports_nothing_witness :
  exists g',
    poll Binary64.ops (session_of Binary64.ops 8000 8000 "  ") 1 (b64 100 1)
         (quiet_obs Binary64.ops (b64 100 1) (b64 102 1) (b64 102 1))
         initial_globals
    = (AwaitClip (Some (b64 100 1)), g')
    /\ spoken_text g' = ""%string
    /\ last (stdout g') LogInterrupted = LogFinished.
Proof.
  apply (wordless_clip_reports_nothing Binary64.ops
           (session_of Binary64.ops 8000 8000 "  ") 1 (b64 100 1)
           (quiet_obs Binary64.ops (b64 100 1) (b64 102 1) (b64 102 1))
           initial_globals).
  - reflexivity.
  - vm_compute; reflexivity.
  - vm_compute; reflexivity.
  - right; split; vm_compute; reflexivity.
Defined.

(* ------------------------------------------------------------------ *)
(** * Further properties of the HTTP endpoints                         *)
(* ------------------------------------------------------------------ *)

(** X11.  POST /recording only reads: for every JSON object as body,
    with or without a [message] key, it answers 200 with the current
    [spoken_text] and leaves the queue, the interrupt event and
    [spoken_text] as they were; a body that is not an object raises
    AttributeError and changes nothing. *)
Theorem recording_end_only_reads :
  forall (data : json) (g : Globals),
    let '(r, g') := handle_recording_end data g in
    playback_queue g' = playback_queue g
    /\ stop_playback_event g' = stop_playback_event g
    /\ spoken_text g' = spoken_text g
    /\ (if is_dict data
        then r = ret {| status := 200; text := spoken_text g |}
        else r = raise AttributeError /\ g' = g).
Proof.
  intros data g. unfold handle_recording_end.
  destruct data as [| b | z | q | s | l | d];
    try (cbn; repeat split; reflexivity).
  cbn [py_get is_dict].
  destruct (dict_get d "message") as [m|]; cbn [ret];
    destruct (eq_str _ "Recording Complete"); cbn; repeat split; reflexivity.
Qed.

(** X12.  A POST / whose body is an object without the message
    "Start speaking" (another message, or none) changes nothing and
    produces no response; a body that is not an object raises
    AttributeError and changes nothing. *)
Theorem other_requests_change_nothing :
  forall (data : json) (g : Globals),
    is_start_speaking data = false ->
    snd (handle_start_speaking data g) = g
    /\ (if is_dict data
        then fst (handle_start_speaking data g) = ret None
        else fst (handle_start_speaking data g) = raise AttributeError).
Proof.
  intros data g Hd. unfold is_start_speaking in Hd.
  unfold handle_start_speaking.
  destruct data as [| b | z | q | s | l | d];
    try (cbn; split; reflexivity).
  cbn [is_dict].
  destruct (py_get (JDict d) "message" JNull) as [e | m] eqn:Hm.
  - cbn in Hm. destruct (dict_get d "message"); discriminate.
  - rewrite Hd. split; reflexivity.
Qed.

Lemma other_requests_change_nothing_witness :
  snd (handle_start_speaking
         (JDict [("message", JStr "Stop speaking")]%string) two_queued)
  = two_queued
  /\ fst (handle_start_speaking
            (JDict [("message", JStr "Stop speaking")]%string) two_queued)
     = ret None.
Proof.
  apply (other_requests_change_nothing
           (JDict [("message", JStr "Stop speaking")]%string) two_queued).
  reflexivity.
Defined.

(* ------------------------------------------------------------------ *)
(** * Further properties of the feed connector                         *)
(* ------------------------------------------------------------------ *)

Lemma on_socket_error_bounds : forall label e retry g,
  0 <= retry ->
  let '(c, d, _) := on_socket_error label e retry g in
  (forall r, c = Connecting r -> 0 <= r)
  /\ (forall x, d = Some x -> 2 <= x <= 60).
Proof.
  intros label e retry g Hr. unfold on_socket_error.
  destruct (is_Exception e).
  - split.
    + intros r H; injection H as <-; lia.
    + intros x H; injection H as <-.
      assert (2 ^ 1 <= 2 ^ (retry + 1)) by (apply Z.pow_le_mono_r; lia).
      change (2 ^ 1) with 2 in *. lia.
  - split; intros; discriminate.
Qed.

Lemma socket_turn_bounds : forall enq uri label a retry g,
  0 <= retry ->
  let '(c, d, _) := socket_turn enq uri label a retry g in
  (forall r, c = Connecting r -> 0 <= r)
  /\ (forall x, d = Some x -> 2 <= x <= 60).
Proof.
  intros enq uri label a retry g Hr. unfold socket_turn.
  destruct a as [e | send frames closing].
  - apply on_socket_error_bounds. exact Hr.
  - destruct (if String.eqb label "primary" then send else None) as [e|];
      [apply (on_socket_error_bounds label e 0); lia|].
    destruct (stream enq label frames _) as [[|e] g1];
      [|apply (on_socket_error_bounds label e 0); lia].
    destruct closing as [e|];
      [apply (on_socket_error_bounds label e 0); lia|].
    split; [intros r H; injection H as <-; lia | intros x H; discriminate].
Qed.

Lemma socket_loop_bounds : forall enq uri label script retry g,
  0 <= retry ->
  Forall (fun d => 2 <= d <= 60)
         (snd (fst (socket_loop enq uri label script (Connecting retry) g))).
Proof.
  intros enq uri label script; induction script as [|a script IH];
    intros retry g Hr; [constructor|].
  cbn [socket_loop].
  pose proof (socket_turn_bounds enq uri label a retry g Hr) as Ht.
  destruct (socket_turn enq uri label a retry g) as [[c d] g1].
  destruct Ht as [Hc Hd].
  destruct c as [r1 | e].
  - specialize (IH r1 g1 (Hc r1 eq_refl)).
    destruct (socket_loop enq uri label script (Connecting r1) g1)
      as [[c2 ds] g2].
    cbn [fst snd] in *. apply Forall_app. split; [|exact IH].
    destruct d as [x|]; [|constructor].
    constructor; [apply Hd; reflexivity | constructor].
  - rewrite socket_loop_escaped. cbn [fst snd]. rewrite app_nil_r.
    destruct d as [x|]; [|constructor].
    constructor; [apply Hd; reflexivity | constructor].
Qed.

(** X13.  Whatever the transport does and whatever [enqueue_clip] is
    bound to, every pause between two connection attempts lasts at
    least 2 and at most 60 seconds. *)
Theorem reconnect_delays_are_bounded :
  forall (enqueue_clip : option EnqueueFn) (uri label : string)
         (script : list Attempt) (g : Globals),
    Forall (fun d => 2 <= d <= 60)
           (snd (fst (_generic_socket enqueue_clip uri label script g))).
Proof.
  intros. unfold _generic_socket. apply socket_loop_bounds. lia.
Qed.

Lemma accept_message_dict_next : forall d g,
  fst (accept_message module_enqueue_clip (JDict d) g) = Next.
Proof.
  intros d g. unfold accept_message. cbn [py_get].
  destruct (dict_get d "text") as [t|]; cbn [ret];
    destruct (dict_get d "audio") as [a|]; cbn [ret truthy];
    try destruct (truthy a); try reflexivity;
    match goal with
    | |- context [process_audio _ ?x ?y ?z] =>
        destruct (process_audio_unbound x y z) as [ls ->]; reflexivity
    end.
Qed.

Lemma on_message_ok_frame : forall label p g,
  frame_ok p = true ->
  fst (on_message module_enqueue_clip label p g) = Next.
Proof.
  intros label p g Hp. unfold on_message.
  destruct p as [msg|]; [|reflexivity].
  destruct msg as [| b | z | q | s | l | d]; try discriminate.
  destruct (String.eqb label "primary"); [|apply accept_message_dict_next].
  cbn [py_get].
  destruct (dict_get d "robot_id") as [r|]; cbn [ret];
    destruct (negb (eq_str _ ROBOT_ID)); try reflexivity;
    apply accept_message_dict_next.
Qed.

Lemma stream_ok_frames : forall label frames g,
  forallb frame_ok frames = true ->
  exists g',
    stream module_enqueue_clip label frames g = (Next, g')
    /\ playback_queue g' = playback_queue g.
Proof.
  intros label frames; induction frames as [|p frames IH]; intros g Hf.
  - exists g. auto.
  - cbn [forallb] in Hf. apply andb_prop in Hf as [Hp Hf].
    cbn [stream].
    pose proof (on_message_ok_frame label p g Hp) as Hnext.
    destruct (on_message_unbound label p g) as (fl & ls & Hm & _).
    rewrite Hm in Hnext. cbn [fst] in Hnext. subst fl. rewrite Hm.
    destruct (IH {| playback_queue := playback_queue g;
                    stop_playback_event := stop_playback_event g;
                    spoken_text := spoken_text g;
                    stdout := stdout g ++ ls |} Hf) as (g' & -> & Hq).
    exists g'. auto.
Qed.

(** X14.  When every received frame is malformed JSON (which is only
    reported) or a JSON object, and the server then closes the
    connection normally, the connector goes straight back to connecting:
    [retry] is 0 and there is no pause. *)
Theorem normal_close_reconnects_at_once :
  forall (uri label : string) (send : option exn)
         (frames : list (option json)) (retry : Z) (g : Globals),
    (String.eqb label "primary" = true -> send = None) ->
    forallb frame_ok frames = true ->
    exists g',
      socket_turn module_enqueue_clip uri label (Connects send frames None)
                  retry g
      = (Connecting 0, None, g')
      /\ playback_queue g' = playback_queue g.
Proof.
  intros uri label send frames retry g Hsend Hf. unfold socket_turn.
  assert (Hs : (if String.eqb label "primary" then send else None) = None).
  { destruct (String.eqb label "primary"); [apply Hsend|]; reflexivity. }
  rewrite Hs.
  destruct (stream_ok_frames label frames
              (print (LogConnected label) (print (LogConnecting uri) g)) Hf)
    as (g' & -> & Hq).
  exists g'. split; [reflexivity | exact Hq].
Qed.

Lemma normal_close_reconnects_at_once_witness :
  exists g',
    socket_turn module_enqueue_clip "ws://feed" "primary"
      (Connects None [None; Some (JDict own_message);
                      Some (JDict foreign_message)] None)
      5 initial_globals
    = (Connecting 0, None, g')
    /\ playback_queue g' = playback_queue initial_globals.
Proof.
  apply (normal_close_reconnects_at_once "ws://feed" "primary" None
           [None; Some (JDict own_message); Some (JDict foreign_message)]
           5 initial_globals); reflexivity.
Defined.

Lemma on_message_not_dict : forall enq label msg g,
  is_dict msg = false ->
  on_message enq label (Some msg) g = (Raised AttributeError, g).
Proof.
  intros enq label msg g Hm. unfold on_message, accept_message.
  destruct msg; try discriminate; destruct (String.eqb label "primary");
    reflexivity.
Qed.

Lemma stream_app : forall enq label f1 f2 g,
  stream enq label (f1 ++ f2) g
  = match stream enq label f1 g with
    | (Next, g') => stream enq label f2 g'
    | (Raised e, g') => (Raised e, g')
    end.
Proof.
  intros enq label f1; induction f1 as [|p f1 IH]; intros f2 g.
  - reflexivity.
  - cbn [app stream].
    destruct (on_message enq label p g) as [[|e] g1]; [apply IH | reflexivity].
Qed.

(** X15.  A message that is valid JSON but not an object (an array, a
    string, a number, null) ends the connection: the receive loop
    raises AttributeError there, the frames behind it are never
    handled, and the connector pauses 2 seconds before it connects
    again. *)
Theorem non_object_message_drops_connection :
  forall (uri label : string) (send : option exn)
         (before rest : list (option json)) (msg : json)
         (closing : option exn) (retry : Z) (g : Globals),
    (String.eqb label "primary" = true -> send = None) ->
    forallb frame_ok before = true ->
    is_dict msg = false ->
    exists g1,
      stream module_enqueue_clip label before
             (print (LogConnected label) (print (LogConnecting uri) g))
      = (Next, g1)
      /\ socket_turn module_enqueue_clip uri label
           (Connects send (before ++ Some msg :: rest) closing) retry g
         = (Connecting 1, Some 2,
            print (LogSocketError label AttributeError 2) g1).
Proof.
  intros uri label send before rest msg closing retry g Hsend Hb Hm.
  destruct (stream_ok_frames label before
              (print (LogConnected label) (print (LogConnecting uri) g)) Hb)
    as (g1 & Hs & _).
  exists g1. split; [exact Hs|].
  unfold socket_turn.
  assert (Hs0 : (if String.eqb label "primary" then send else None) = None).
  { destruct (String.eqb label "primary"); [apply Hsend|]; reflexivity. }
  rewrite Hs0, stream_app, Hs. cbn [stream].
  rewrite on_message_not_dict by exact Hm.
  reflexivity.
Qed.

Lemma non_object_message_drops_connection_witness :
  exists g1,
    stream module_enqueue_clip "lecture" [Some (JDict own_message)]
           (print (LogConnected "lecture")
                  (print (LogConnecting "ws://feed") initial_globals))
    = (Next, g1)
    /\ socket_turn module_enqueue_clip "ws://feed" "lecture"
         (Connects None ([Some (JDict own_message)]
                         ++ Some (JList [JInt 1; JInt 2])
                         :: [Some (JDict own_message)]) None)
         0 initial_globals
       = (Connecting 1, Some 2,
          print (LogSocketError "lecture" AttributeError 2) g1).
Proof.
  apply (non_object_message_drops_connection "ws://feed" "lecture" None
           [Some (JDict own_message)] [Some (JDict own_message)]
           (JList [JInt 1; JInt 2]) None 0 initial_globals);
    [discriminate | reflexivity | reflexivity].
Defined.

(** X16.  The two feeds differ by the filter only: a message that
    carries this robot's identity is handled on the primary feed
    exactly as on any other feed, whatever [enqueue_clip] is bound
    to. *)
Theorem feeds_agree_on_own_messages :
  forall (enqueue_clip : option EnqueueFn) (label : string) (msg : json)
         (g : Globals),
    robot_id_matches msg = true ->
    on_message enqueue_clip "primary" (Some msg) g
    = on_message enqueue_clip label (Some msg) g.
Proof.
  intros enq label msg g Hm. unfold on_message.
  change (String.eqb "primary" "primary") with true. cbv iota.
  destruct msg as [| b | z | q | s | l | d]; try discriminate.
  cbn [robot_id_matches] in Hm. cbn [py_get].
  destruct (dict_get d "robot_id") as [r|]; [|discriminate].
  cbn [ret]. rewrite Hm. cbn [negb].
  destruct (String.eqb label "primary"); [|reflexivity].
  reflexivity.
Qed.

Lemma feeds_agree_on_own_messages_witness :
  on_message (Some commented_enqueue_clip) "primary"
             (Some (JDict own_message)) initial_globals
  = on_message (Some commented_enqueue_clip) "lecture"
               (Some (JDict own_message)) initial_globals.
Proof.
  apply (feeds_agree_on_own_messages (Some commented_enqueue_clip) "lecture"
           (JDict own_message) initial_globals).
  reflexivity.
Defined.

Lemma byte_of_json_of_byte : forall b : byte,
  byte_of_json (JInt (Z.of_N (Byte.to_N b))) = ret b.
Proof.
  intros b. unfold byte_of_json.
  pose proof (Byte.to_N_bounded b) as Hb.
  assert (H : (0 <=? Z.of_N (to_N b)) && (Z.of_N (to_N b) <? 256) = true).
  { apply andb_true_intro. split; [apply Z.leb_le | apply Z.ltb_lt]; lia. }
  rewrite H, N2Z.id, Byte.of_to_N. reflexivity.
Qed.

(** X17.  The conversion of line 234 inverts the encoding of audio as a
    JSON array of byte values: [bytes(...)] of the array of the values
    of [bs] is [bs] again, for every byte string. *)
Theorem bytes_of_json_array_round_trip : forall bs : list byte,
  py_bytes (json_of_bytes bs) = ret bs.
Proof.
  intros bs. unfold json_of_bytes, py_bytes.
  induction bs as [|b bs IH]; [reflexivity|].
  cbn [map bytes_of_list]. rewrite byte_of_json_of_byte. cbn [bind ret].
  rewrite IH. reflexivity.
Qed.

(** X18.  An audio array with an element outside [range(256)] is
    rejected as a whole: [bytes(...)] raises ValueError, the message is
    reported and dropped, and the receive loop goes on. *)
Theorem out_of_range_audio_is_dropped :
  forall (enqueue_clip : option EnqueueFn) (pre post : list byte) (z : Z)
         (text : json) (g : Globals),
    z < 0 \/ 255 < z ->
    let audio_list :=
      JList (map (fun b => JInt (Z.of_N (Byte.to_N b))) pre
             ++ JInt z
             :: map (fun b => JInt (Z.of_N (Byte.to_N b))) post) in
    py_bytes audio_list = raise ValueError
    /\ process_audio enqueue_clip audio_list text g
       = (Next, print (LogAudioError ValueError) g).
Proof.
  intros enq pre post z text g Hz. cbv zeta.
  assert (H : py_bytes
                (JList (map (fun b => JInt (Z.of_N (Byte.to_N b))) pre
                        ++ JInt z
                        :: map (fun b => JInt (Z.of_N (Byte.to_N b))) post))
              = raise ValueError).
  { unfold py_bytes. induction pre as [|b pre IH].
    - cbn [map app bytes_of_list byte_of_json].
      assert (Hr : (0 <=? z) && (z <? 256) = false).
      { apply andb_false_iff. destruct Hz.
        - left. apply Z.leb_gt. lia.
        - right. apply Z.ltb_ge. lia. }
      rewrite Hr. reflexivity.
    - cbn [map app bytes_of_list]. rewrite byte_of_json_of_byte.
      cbn [bind ret]. rewrite IH. reflexivity. }
  split; [exact H|].
  unfold process_audio. rewrite H. reflexivity.
Qed.

Lemma out_of_range_audio_is_dropped_witness :
  py_bytes (JList [JInt 82; JInt 256; JInt 70]) = raise ValueError
  /\ process_audio (Some commented_enqueue_clip)
                   (JList [JInt 82; JInt 256; JInt 70]) (JStr "hello")
                   initial_globals
     = (Next, print (LogAudioError ValueError) initial_globals).
Proof.
  apply (out_of_range_audio_is_dropped (Some commented_enqueue_clip)
           [x52]%byte [x46]%byte 256 (JStr "hello") initial_globals).
  right; lia.
Defined.

(* ------------------------------------------------------------------ *)
(** * Properties of the text helpers                                   *)
(* ------------------------------------------------------------------ *)

Lemma string_app_assoc : forall a b c : string,
  ((a ++ b) ++ c)%string = (a ++ (b ++ c))%string.
Proof.
  induction a as [|x a IH]; intros b c; cbn; [reflexivity|].
  rewrite IH. reflexivity.
Qed.

Lemma string_app_nil_r : forall a : string, (a ++ "")%string = a.
Proof.
  induction a as [|x a IH]; cbn; [reflexivity | rewrite IH; reflexivity].
Qed.

Lemma no_space_app : forall a b,
  no_space (a ++ b) = no_space a && no_space b.
Proof.
  induction a as [|x a IH]; intros b; cbn; [reflexivity|].
  rewrite IH, andb_assoc. reflexivity.
Qed.

Lemma is_word_flush : forall cur rest,
  no_space cur = true ->
  Forall (fun w => is_word w = true) rest ->
  Forall (fun w => is_word w = true) (flush_word cur rest).
Proof.
  intros cur rest Hc Hr. destruct cur as [|c cur]; [exact Hr|].
  cbn [flush_word]. constructor; [|exact Hr].
  unfold is_word. rewrite Hc. reflexivity.
Qed.

(** Every word produced by [str.split()] is non-empty and free of
    separators. *)
Lemma split_from_words : forall s cur,
  no_space cur = true ->
  Forall (fun w => is_word w = true) (split_from cur s).
Proof.
  induction s as [|c s IH]; intros cur Hc; cbn [split_from].
  - apply is_word_flush; [exact Hc | constructor].
  - destruct (isspace c) eqn:Ec.
    + apply is_word_flush; [exact Hc | apply IH; reflexivity].
    + apply IH. rewrite no_space_app, Hc. cbn. rewrite Ec. reflexivity.
Qed.

(** Reading a word: its characters go to the word being built. *)
Lemma split_from_word : forall w cur s,
  no_space w = true ->
  split_from cur (w ++ s) = split_from (cur ++ w) s.
Proof.
  induction w as [|c w IH]; intros cur s Hw.
  - cbn. rewrite string_app_nil_r. reflexivity.
  - cbn in Hw. apply andb_prop in Hw as [Hc Hw].
    apply negb_true_iff in Hc.
    cbn [append split_from]. rewrite Hc, IH by exact Hw.
    rewrite string_app_assoc. reflexivity.
Qed.

Lemma split_join_words : forall ws,
  Forall (fun w => is_word w = true) ws ->
  py_split (py_join ws) = ws.
Proof.
  unfold py_split, py_join.
  induction ws as [|w ws IH]; intros Hws; [reflexivity|].
  inversion Hws as [|w' ws' Hw Hrest]; subst.
  unfold is_word in Hw. apply andb_prop in Hw as [Hne Hns].
  destruct ws as [|w2 ws].
  - cbn [concat].
    replace (split_from "" w) with (split_from "" (w ++ ""))
      by (rewrite string_app_nil_r; reflexivity).
    rewrite split_from_word by exact Hns.
    cbn [append split_from].
    destruct w; [discriminate | reflexivity].
  - change (concat " " (w :: w2 :: ws))
      with (w ++ " " ++ concat " " (w2 :: ws))%string.
    rewrite split_from_word by exact Hns.
    cbn [append split_from].
    change (isspace " ") with true. cbv iota.
    rewrite (IH Hrest).
    destruct w; [discriminate | reflexivity].
Qed.

Lemma Forall_firstn_keep : forall (A : Type) (P : A -> Prop) (n : nat) l,
  Forall P l -> Forall P (firstn n l).
Proof.
  intros A P n; induction n as [|n IH]; intros l Hl; [constructor|].
  destruct l as [|x l]; [constructor|].
  inversion Hl; subst. cbn. constructor; auto.
Qed.

(** X19.  Splitting and joining are inverse on what the worker reports:
    for every text and every count, the first words of the text, joined
    by single spaces, split again into exactly those words.  The value
    read from /recording therefore names the spoken words without
    ambiguity. *)
Theorem spoken_prefix_splits_back : forall (text : string) (n : nat),
  py_split (py_join (firstn n (py_split text))) = firstn n (py_split text).
Proof.
  intros text n. apply split_join_words. apply Forall_firstn_keep.
  unfold py_split. apply split_from_words. reflexivity.
Qed.

(** X20.  [str.split()] never yields an empty word nor a word that
    contains white space, and it yields no word at all exactly when the
    text consists of white space only. *)
Theorem split_yields_proper_words : forall text : string,
  Forall (fun w => is_word w = true) (py_split text)
  /\ (py_split text = [] <->
      forallb isspace (list_ascii_of_string text) = true).
Proof.
  intros text. split; [unfold py_split; apply split_from_words; reflexivity|].
  unfold py_split.
  assert (G : forall s cur,
             split_from cur s = [] <->
             cur = EmptyString
             /\ forallb isspace (list_ascii_of_string s) = true).
  { induction s as [|c s IH]; intros cur; cbn [split_from list_ascii_of_string forallb].
    - destruct cur; cbn; split; intros H; auto; try discriminate.
      destruct H; discriminate.
    - destruct (isspace c) eqn:Ec; cbn [andb].
      + destruct cur as [|x cur]; cbn [flush_word].
        * rewrite IH. tauto.
        * split; [discriminate | intros [H _]; discriminate].
      + rewrite IH. split; [|intros [_ H]; discriminate].
        intros [H _]. destruct cur; discriminate. }
  rewrite G. tauto.
Qed.

(* ------------------------------------------------------------------ *)
(** * The text of a clip                                               *)
(* ------------------------------------------------------------------ *)

(** X21.  A clip whose text is a dict is played exactly as the clip
    whose text is the string under the key [text] (lines 102-103), and
    as the clip with the empty text when the dict has no such key. *)
Theorem dict_text_is_unwrapped :
  forall (F : FloatOps) (wave_open : list byte -> result WavFile)
         (start : option (float F)) (o : Obs F)
         (d : list (string * json)) (t : string) (audio_bytes : payload)
         (g : Globals),
    dict_get d "text" = Some (JStr t)
    \/ (dict_get d "text" = None /\ t = ""%string) ->
    start_clip F wave_open start o (JDict d, audio_bytes) g
    = start_clip F wave_open start o (JStr t, audio_bytes) g.
Proof.
  intros F wave_open start o d t audio_bytes g Ht. unfold start_clip.
  destruct audio_bytes as [b | v]; [|reflexivity].
  destruct (_decode_wav wave_open b) as [e | [rate a]]; [reflexivity|].
  cbv beta iota. destruct (Z.eqb rate 0); [reflexivity|].
  cbn [py_get].
  destruct Ht as [-> | [-> ->]]; reflexivity.
Qed.

Lemma dict_text_is_unwrapped_witness :
  start_clip Exact.ops two_clip_reader None
             (quiet_obs Exact.ops (100 # 1) (100 # 1) (100 # 1))
             (JDict [("text", JStr "hello world")]%string, Bytes clip_bytes)
             initial_globals
  = start_clip Exact.ops two_clip_reader None
               (quiet_obs Exact.ops (100 # 1) (100 # 1) (100 # 1))
               (JStr "hello world", Bytes clip_bytes) initial_globals.
Proof.
  apply (dict_text_is_unwrapped Exact.ops two_clip_reader None
           (quiet_obs Exact.ops (100 # 1) (100 # 1) (100 # 1))
           [("text", JStr "hello world")]%string "hello world"
           (Bytes clip_bytes) initial_globals).
  left; reflexivity.
Defined.

(** X22.  The worker only handles text that is a string: for a clip
    whose audio decodes, with a non-zero sample rate, and whose text is
    null, a number, a boolean or a list, [text.split()] raises
    AttributeError after the clip line is printed and the worker is
    gone; the sound device is not used. *)
Theorem non_string_text_ends_worker :
  forall (F : FloatOps) (wave_open : list byte -> result WavFile)
         (start : option (float F)) (o : Obs F) (text : json)
         (b : list byte) (rate : Z) (a : ndarray) (g : Globals),
    _decode_wav wave_open b = ret (rate, a) ->
    rate <> 0 ->
    (forall s, text <> JStr s) ->
    is_dict text = false ->
    start_clip F wave_open start o (text, Bytes b) g
    = (Crashed AttributeError,
       print (LogClip (array_len a) rate (array_channels a))
             (set_event false g)).
Proof.
  intros F wave_open start o text b rate a g Hd Hr Hs Hdict.
  unfold start_clip. rewrite Hd. unfold ret. cbv beta iota.
  apply Z.eqb_neq in Hr. rewrite Hr.
  destruct text as [| x | z | q | s | l | d]; try reflexivity.
  - exfalso. exact (Hs s eq_refl).
  - discriminate.
Qed.

Lemma non_string_text_ends_worker_witness :
  start_clip Exact.ops two_clip_reader None
             (quiet_obs Exact.ops (100 # 1) (100 # 1) (100 # 1))
             (JInt 5, Bytes other_bytes) initial_globals
  = (Crashed AttributeError,
     print (LogClip (array_len {| samples := repeat (0 # 32768) 4000;
                                  columns := None |})
                    8000
                    (array_channels {| samples := repeat (0 # 32768) 4000;
                                       columns := None |}))
           (set_event false initial_globals)).
Proof.
  apply (non_string_text_ends_worker Exact.ops two_clip_reader None
           (quiet_obs Exact.ops (100 # 1) (100 # 1) (100 # 1))
           (JInt 5) other_bytes 8000
           {| samples := repeat (0 # 32768) 4000; columns := None |}
           initial_globals).
  - vm_compute; reflexivity.
  - discriminate.
  - intros s; discriminate.
  - reflexivity.
Defined.

(* ------------------------------------------------------------------ *)
(** * The word count in exact arithmetic                               *)
(* ------------------------------------------------------------------ *)





(* ------------------------------------------------------------------ *)
(** * Properties of the speech client                                  *)
(* ------------------------------------------------------------------ *)

Module SpeechClientFacts.

Import SpeechClient.

Section RecorderFacts.

Variable F : FloatOps.

Lemma record_turn_inv : forall (c : Chunk F) (st : Recorder F),
  idle_is_empty st ->
  match record_turn F c st with
  | Continue st' => idle_is_empty st'
  | Break st' => buffer st' = []
  | Raise _ _ => True
  end.
Proof.
  intros c st Hst. unfold record_turn.
  destruct (read c) as [e | chunk]; [exact I|].
  destruct (Nat.odd (List.length chunk)); [exact I|].
  destruct (loud_speech F c) as [e | [v|]]; [exact I | |].
  - intros H; discriminate.
  - destruct (recording st) eqn:Hr.
    + unfold idle_is_empty; cbn. congruence.
    + destruct (flt F _ _); [exact (Hst Hr)|].
      destruct (fge F _ _); [|exact Hst].
      destruct (sent c); [exact I|].
      intros _. cbn. exact (Hst Hr).
Qed.

Lemma record_loop_inv : forall (script : list (Chunk F)) (st : Recorder F),
  idle_is_empty st ->
  forall st', record_loop F script st = Break st' -> buffer st' = [].
Proof.
  induction script as [|c script IH]; intros st Hst st' H; [discriminate|].
  cbn [record_loop] in H.
  pose proof (record_turn_inv c st Hst) as Ht.
  destruct (record_turn F c st) as [st1 | st1 | e st1].
  - exact (IH st1 Ht st' H).
  - injection H as <-. exact Ht.
  - discriminate.
Qed.

Lemma record_turn_recording : forall (c : Chunk F) (st : Recorder F),
  recording st = true ->
  match record_turn F c st with
  | Continue st' => recording st' = true
  | Break _ => False
  | Raise _ _ => True
  end.
Proof.
  intros c st Hr. unfold record_turn.
  destruct (read c) as [e | chunk]; [exact I|].
  destruct (Nat.odd (List.length chunk)); [exact I|].
  destruct (loud_speech F c) as [e | [v|]]; [exact I | reflexivity |].
  rewrite Hr. reflexivity.
Qed.

Lemma record_loop_recording : forall (script : list (Chunk F)) (st : Recorder F),
  recording st = true ->
  forall st', record_loop F script st <> Break st'.
Proof.
  induction script as [|c script IH]; intros st Hr st' H; [discriminate|].
  cbn [record_loop] in H.
  pose proof (record_turn_recording c st Hr) as Ht.
  destruct (record_turn F c st) as [st1 | st1 | e st1].
  - exact (IH st1 Ht st' H).
  - exact Ht.
  - discriminate.
Qed.

End RecorderFacts.

(** X24.  [record_audio] never returns a recording.  Its loop is left
    by [break] only while nothing has been recorded, so whenever the
    function returns, it returns [None]; once a frame of speech has
    been taken, every later turn keeps recording, and only an exception
    ends the call. *)
Theorem record_audio_returns_no_audio :
  forall (F : FloatOps) (wav_base64 : list byte -> string)
         (opened : option exn) (t_status t_wait : float F)
         (script : list (Chunk F)) (cleanup : option exn),
    (forall audio,
        fst (record_audio F wav_base64 opened t_status t_wait script cleanup)
        = Returned audio ->
        audio = None)
    /\
    (forall (st st' : Recorder F),
        recording st = true -> record_loop F script st <> Break st').
Proof.
  intros F wav_base64 opened t_status t_wait script cleanup. split.
  - intros audio H. unfold record_audio in H.
    destruct opened as [e|]; [discriminate|].
    set (st0 := {| buffer := []; recording := false; silence_count := 0;
                   last_status_time := t_status;
                   start_waiting_time := t_wait;
                   printed := [WaitingForSpeech] |}) in H.
    pose proof (record_loop_inv F script st0 (fun _ => eq_refl)) as Hb.
    destruct (record_loop F script st0) as [st | st | e st];
      try discriminate.
    destruct cleanup; [discriminate|].
    rewrite (Hb st eq_refl) in H. injection H as <-. reflexivity.
  - intros st st' Hr. apply record_loop_recording. exact Hr.
Qed.

Lemma record_audio_returns_no_audio_witness :
  fst (record_audio Exact.ops (fun _ => "UklGRg=="%string) None
                    (100 # 1) (100 # 1)
                    [silent_chunk Exact.ops (101 # 1);
                     silent_chunk Exact.ops (106 # 1)] None)
  = Returned None
  /\ (forall st',
        record_loop Exact.ops
          [silent_chunk Exact.ops (101 # 1); silent_chunk Exact.ops (200 # 1)]
          (Build_Recorder Exact.ops [repeat x7f%byte 960] true 0
                          (100 # 1) (100 # 1) [SpeechDetected])
        <> Break st').
Proof.
  split; [reflexivity|].
  intros st'.
  apply (proj2 (record_audio_returns_no_audio Exact.ops
                  (fun _ => "UklGRg=="%string) None (100 # 1) (100 # 1)
                  [silent_chunk Exact.ops (101 # 1);
                   silent_chunk Exact.ops (200 # 1)] None)).
  reflexivity.
Defined.

Lemma connection_loop_stopped : forall script c,
  (forall r, c <> Running r) ->
  connection_loop script c = (c, [], []).
Proof.
  intros [|a script] [r | | e] H; try reflexivity.
  exfalso. exact (H r eq_refl).
Qed.

Lemma attempt_turn_refused : forall a r,
  refused a = true ->
  fst (attempt_turn a r)
  = if r + 1 <=? max_retries then (Running (r + 1), Some 5)
    else (Exited, None).
Proof.
  intros [reg f] r H. unfold refused in H. cbn in H.
  apply andb_prop in H as [Hreg Hh]. apply negb_true_iff in Hreg. subst reg.
  unfold attempt_turn, on_failure. cbn.
  destruct f; try discriminate; destruct (r + 1 <=? max_retries); reflexivity.
Qed.

Lemma connection_loop_refused : forall script r,
  0 <= r <= max_retries ->
  forallb refused script = true ->
  fst (connection_loop script (Running r))
  = if r + Z.of_nat (List.length script) <=? max_retries
    then (Running (r + Z.of_nat (List.length script)),
          repeat 5 (List.length script))
    else (Exited, repeat 5 (Z.to_nat (max_retries - r))).
Proof.
  unfold max_retries.
  induction script as [|a script IH]; intros r Hr Hs.
  - cbn. rewrite Z.add_0_r.
    destruct (Z.leb_spec r 5); [reflexivity | lia].
  - cbn [forallb] in Hs. apply andb_prop in Hs as [Ha Hs].
    cbn [connection_loop].
    pose proof (attempt_turn_refused a r Ha) as Ht. unfold max_retries in Ht.
    destruct (attempt_turn a r) as [[c d] ls]. cbn [fst] in Ht.
    destruct (Z.leb_spec (r + 1) 5) as [Hle | Hgt].
    + injection Ht as -> ->.
      specialize (IH (r + 1) ltac:(lia) Hs).
      destruct (connection_loop script (Running (r + 1))) as [[c2 ds] ls2].
      cbn [fst] in IH |- *.
      cbn [List.length]. rewrite Nat2Z.inj_succ.
      replace (r + Z.succ (Z.of_nat (List.length script)))
        with (r + 1 + Z.of_nat (List.length script)) by lia.
      destruct (Z.leb_spec (r + 1 + Z.of_nat (List.length script)) 5).
      * injection IH as -> ->. reflexivity.
      * injection IH as -> ->. cbn [app].
        replace (Z.to_nat (5 - r)) with (S (Z.to_nat (5 - (r + 1)))) by lia.
        reflexivity.
    + injection Ht as -> ->.
      rewrite connection_loop_stopped by (intros; discriminate).
      cbn [fst app List.length].
      destruct (Z.leb_spec (r + Z.of_nat (S (List.length script))) 5); [lia|].
      replace (5 - r) with 0 by lia. reflexivity.
Qed.

(** X25.  The speech client tolerates five consecutive refused
    connections and gives up at the sixth: after [n <= 5] attempts that
    fail with a handled exception before the registration is sent it is
    still running, having slept 5 seconds after each; after six or more
    it has left its loop, having slept five times.  An attempt that got
    as far as the registration starts the count again. *)
Theorem speech_client_gives_up_at_sixth_failure :
  forall script : list Attempt,
    forallb refused script = true ->
    ((List.length script <= 5)%nat ->
       fst (process_audio_and_send script)
       = (Running (Z.of_nat (List.length script)),
          repeat 5 (List.length script)))
    /\ ((6 <= List.length script)%nat ->
          fst (process_audio_and_send script) = (Exited, repeat 5 5%nat))
    /\ (forall (history : Z) (a : Attempt),
          registered a = true -> handled (failure a) = true ->
          (List.length script <= 4)%nat ->
          fst (connection_loop (a :: script) (Running history))
          = (Running (1 + Z.of_nat (List.length script)),
             repeat 5 (S (List.length script)))).
Proof.
  intros script Hs.
  pose proof (connection_loop_refused script 0 ltac:(unfold max_retries; lia) Hs)
    as H0.
  unfold process_audio_and_send, max_retries in *.
  split; [|split].
  - intros Hn. rewrite H0.
    destruct (Z.leb_spec (0 + Z.of_nat (List.length script)) 5); [|lia].
    reflexivity.
  - intros Hn. rewrite H0.
    destruct (Z.leb_spec (0 + Z.of_nat (List.length script)) 5); [lia|].
    reflexivity.
  - intros history [reg f] Hreg Hh Hn. cbn in Hreg, Hh. subst reg.
    cbn [connection_loop]. unfold attempt_turn, on_failure. cbn.
    pose proof (connection_loop_refused script 1
                  ltac:(unfold max_retries; lia) Hs) as H1.
    unfold max_retries in H1.
    destruct (Z.leb_spec (1 + Z.of_nat (List.length script)) 5); [|lia].
    destruct f; try discriminate; cbn;
      destruct (connection_loop script (Running 1)) as [[c ds] ls];
      cbn [fst] in H1 |- *; injection H1 as -> ->; reflexivity.
Qed.

Lemma speech_client_gives_up_at_sixth_failure_witness :
  fst (process_audio_and_send
         (repeat {| registered := false; failure := OSError |} 6))
  = (Exited, [5; 5; 5; 5; 5]).
Proof.
  apply (proj1 (proj2 (speech_client_gives_up_at_sixth_failure
                  (repeat {| registered := false; failure := OSError |} 6)
                  eq_refl))).
  cbn; lia.
Defined.

End SpeechClientFacts.
